(** * The dependency-injection container of lab7.py

    A shallow embedding of [Injector], [Scope] and the example services of
    [src/lab7/lab7.py], with the properties of the container stated and
    proved over it.

    - Python objects live in a heap and an instance is a reference into it,
      so that "the identical instance" is equality of references.
    - An exception is a value: its class and the text [str(e)] gives.  The
      classes are those deriving from [Exception], which is what the
      [except] clauses of the module catch; a class knows the class it
      derives from, and an [except] clause catches the classes it names
      and those deriving from them.
    - A service identity is a class object, identified by its [__name__].
      [globals()] is a parameter of the development; it binds a name to a
      service identity or to an object that is none, and [module_globals]
      is the namespace of the module itself.
    - A class is given by what its constructor and its [set_logger] method
      do with their arguments, a factory by what it returns.
    - The mutual recursion [get_instance] -> [_create_instance] ->
      [_resolve_constructor_params] -> [get_instance] is unfolded along a
      fuel argument that counts nested [get_instance] calls; running out of
      fuel is the outcome [Timeout], which no [except] clause catches.  A
      lookup that has an outcome has it at every larger fuel.  The bound
      CPython puts on the depth of calls, and the [RecursionError] it
      raises there, are not modelled: a configuration on which the nested
      lookups never end has no outcome here, at any fuel. *)

From Stdlib Require Import Ascii.
From stdpp Require Import gmap strings list fin_maps pretty.

(** ** Python values, dictionaries, exceptions *)

Definition loc := nat.

Inductive value :=
| VNone
| VBool (b : bool)
| VInt (z : Z)
| VStr (s : string)
| VRef (l : loc).

(** A [Dict[str, Any]] in insertion order. *)
Definition dict := list (string * value).

Fixpoint dict_get (k : string) (d : dict) : option value :=
  match d with
  | [] => None
  | (k', v) :: d' => if String.eqb k k' then Some v else dict_get k d'
  end.

(** [d[k] = v]: an existing key keeps its position, a new key goes last. *)
Fixpoint dict_set (k : string) (v : value) (d : dict) : dict :=
  match d with
  | [] => [(k, v)]
  | (k', v') :: d' =>
      if String.eqb k k' then (k, v) :: d' else (k', v') :: dict_set k v d'
  end.

Definition dict_keys (d : dict) : list string := map fst d.

(** Exception classes: the built-in ones the module raises or meets, a
    class [OtherError name] deriving from [Exception] directly, and a class
    [Derived name base] deriving from [base], as [NotImplementedError] and
    [RecursionError] derive from [RuntimeError] and [UnicodeError] from
    [ValueError]. *)
Inductive exn_kind :=
| ValueError
| RuntimeError
| KeyError
| TypeError
| AttributeError
| OtherError (name : string)
| Derived (name : string) (base : exn_kind).

(** An exception: its class and [str(e)].  Only classes deriving from
    [Exception] are modelled. *)
Record exn := Exn { exn_class : exn_kind; exn_str : string }.

(** [issubclass(k, ValueError)], [issubclass(k, RuntimeError)] and
    [issubclass(k, KeyError)]: what an [except] clause naming the class
    tests. *)
Fixpoint is_ValueError (k : exn_kind) : bool :=
  match k with
  | ValueError => true
  | Derived _ base => is_ValueError base
  | _ => false
  end.

Fixpoint is_RuntimeError (k : exn_kind) : bool :=
  match k with
  | RuntimeError => true
  | Derived _ base => is_RuntimeError base
  | _ => false
  end.

Fixpoint is_KeyError_class (k : exn_kind) : bool :=
  match k with
  | KeyError => true
  | Derived _ base => is_KeyError_class base
  | _ => false
  end.

(** ** Objects, classes and factories *)

Record object := Object { obj_class : string; obj_attrs : dict }.

(** A class usable as [implementation]: [cls_init] is [__init__] applied to
    keyword arguments, giving the attributes of the new object or raising;
    [cls_set_logger] is the method [set_logger], when the class has one,
    applied to the logger and the current attributes. *)
Record pyclass := PyClass {
  cls_name : string;
  cls_init : dict -> exn + dict;
  cls_set_logger : option (value -> dict -> exn + dict)
}.

(** What a factory call returns: an object it has just built, or a value
    that exists already. *)
Inductive produced :=
| Fresh (o : object)
| Existing (v : value).

Record pyfactory := PyFactory {
  fac_name : string;
  fac_call : dict -> exn + produced
}.

(** The [implementation] argument of [register]. *)
Inductive implementation :=
| ImplClass (c : pyclass)        (* isinstance(implementation, type) *)
| ImplFactory (f : pyfactory)    (* callable and not a type *)
| ImplOther (v : value).         (* neither *)

(** A service identity is a class object, identified by its [__name__]. *)
Definition ident := string.

(** What [globals()] binds a name to, as [get_instance] sees the object: a
    service identity (a class, or another hashable object with a
    [__name__]), or an object that is none, on which the first statement
    of [get_instance] raises [e] before anything else is done: [TypeError]
    at the [in] test for an unhashable object, [AttributeError] at
    [.__name__], while the message is formatted, for a hashable one
    without that attribute.  Such an object is never a key of the
    registrations: [register] is given identities. *)
Inductive binding :=
| Identity (X : ident)
| NotIdentity (e : exn).

Definition identity_of (b : binding) : option ident :=
  match b with
  | Identity X => Some X
  | NotIdentity _ => None
  end.

(** A module namespace. *)
Definition namespace := gmap string binding.

Module LifeStyle.
Definition PerRequest : string := "PerRequest".
Definition Scoped : string := "Scoped".
Definition Singleton : string := "Singleton".
End LifeStyle.

(** The registration dictionary: ['life_style'], ['params'] and one of
    ['factory'] / ['implementation']. *)
Inductive strategy :=
| Factory (f : pyfactory)
| Implementation (c : pyclass).

Record registration := Registration {
  life_style : string;
  params : dict;
  strat : strategy
}.

(** ** State: the injector's four attributes and the object heap *)

Record state := State {
  _registrations : gmap ident registration;
  _singleton_instances : gmap ident value;
  _scoped_instances : gmap ident value;
  _in_scope : bool;
  heap : list object
}.

(** [Injector()] on an empty heap. *)
Definition Injector : state :=
  State ∅ ∅ ∅ false [].

Definition set_registrations (f : gmap ident registration -> gmap ident registration)
    (s : state) : state :=
  State (f (_registrations s)) (_singleton_instances s) (_scoped_instances s)
        (_in_scope s) (heap s).

Definition set_singleton_instances (f : gmap ident value -> gmap ident value)
    (s : state) : state :=
  State (_registrations s) (f (_singleton_instances s)) (_scoped_instances s)
        (_in_scope s) (heap s).

Definition set_scoped_instances (f : gmap ident value -> gmap ident value)
    (s : state) : state :=
  State (_registrations s) (_singleton_instances s) (f (_scoped_instances s))
        (_in_scope s) (heap s).

Definition set_in_scope (b : bool) (s : state) : state :=
  State (_registrations s) (_singleton_instances s) (_scoped_instances s)
        b (heap s).

Definition set_heap (f : list object -> list object) (s : state) : state :=
  State (_registrations s) (_singleton_instances s) (_scoped_instances s)
        (_in_scope s) (f (heap s)).

(** Allocation of a new object: its reference is the next free location. *)
Definition alloc (o : object) (s : state) : loc * state :=
  (length (heap s), set_heap (fun h => h ++ [o]) s).

(** ** Outcomes *)

Inductive outcome (A : Type) :=
| Ok (a : A) (s : state)
| Raise (e : exn) (s : state)
| Timeout.
Arguments Ok {A} a s.
Arguments Raise {A} e s.
Arguments Timeout {A}.

Definition bind {A B} (m : outcome A) (k : A -> state -> outcome B) : outcome B :=
  match m with
  | Ok a s => k a s
  | Raise e s => Raise e s
  | Timeout => Timeout
  end.

(** [try: m except Exception as e: h e]. *)
Definition try_except {A} (m : outcome A) (h : exn -> state -> outcome A) : outcome A :=
  match m with
  | Ok a s => Ok a s
  | Raise e s => h e s
  | Timeout => Timeout
  end.

Definition final_state {A} (m : outcome A) : option state :=
  match m with
  | Ok _ s => Some s
  | Raise _ s => Some s
  | Timeout => None
  end.

(** ** Injector.register *)

(** The key under which [register] stores [implementation]: ['factory'] for
    a callable that is not a type, ['implementation'] for a type; neither
    for anything else. *)
Definition strategy_of (impl : implementation) : option strategy :=
  match impl with
  | ImplOther _ => None
  | ImplFactory f => Some (Factory f)
  | ImplClass c => Some (Implementation c)
  end.

Definition register (interface_type : ident) (impl : implementation)
    (life_style : string) (params : option dict) (s : state) : outcome unit :=
  let params := default [] params in
  match strategy_of impl with
  | None =>
      Raise (Exn ValueError "Implementation must be a class or callable factory method") s
  | Some st =>
      Ok tt (set_registrations
               (insert interface_type (Registration life_style params st)) s)
  end.

(** ** Injector.get_instance and its helpers *)

(** [isinstance(v, str) and v.startswith('@')], giving [v[1:]]. *)
Definition back_reference (v : value) : option string :=
  match v with
  | VStr (String "@"%char rest) => Some rest
  | _ => None
  end.

(** The class [ILogger] of the module, named in [_create_instance]. *)
Definition ILogger : ident := "ILogger".

(** The [except Exception as e: raise RuntimeError(...)] clause shared by
    [get_instance] and [_create_instance]. *)
Definition creation_failure (interface_type : ident) (e : exn) : exn :=
  Exn RuntimeError
      ("Failed to create instance of " +:+ interface_type +:+ ": " +:+ exn_str e).

Definition wrap_failure {A} (interface_type : ident) (m : outcome A) : outcome A :=
  try_except m (fun e s => Raise (creation_failure interface_type e) s).

(** [except (ValueError, RuntimeError): pass]: the clause catches the two
    classes and the classes deriving from them. *)
Definition swallowed (e : exn) : bool :=
  is_ValueError (exn_class e) || is_RuntimeError (exn_class e).

(** [except KeyError]. *)
Definition is_KeyError (e : exn) : bool :=
  is_KeyError_class (exn_class e).

(** [Y] is registered with life style [ls]. *)
Definition registered_as (s : state) (ls : string) (Y : ident) : Prop :=
  ∃ r, _registrations s !! Y = Some r ∧ life_style r = ls.

(** What a lookup may do to the state: the registrations and the scope
    flag stay, the heap grows, an entry of a cache stays once it is there,
    and an entry appears only for an identity registered with the life
    style of that cache. *)
Record extends (s s' : state) : Prop := Extends {
  ext_registrations : _registrations s' = _registrations s;
  ext_in_scope : _in_scope s' = _in_scope s;
  ext_heap : heap s `prefix_of` heap s';
  ext_singleton : ∀ Y,
    _singleton_instances s' !! Y = _singleton_instances s !! Y ∨
    (_singleton_instances s !! Y = None ∧ registered_as s LifeStyle.Singleton Y);
  ext_scoped : ∀ Y,
    _scoped_instances s' !! Y = _scoped_instances s !! Y ∨
    (_scoped_instances s !! Y = None ∧ registered_as s LifeStyle.Scoped Y ∧
     _in_scope s = true)
}.

(** [rec'] answers as [rec] does wherever [rec] has fuel enough. *)
Definition refines (rec rec' : ident -> state -> outcome value) : Prop :=
  ∀ X s, rec X s ≠ Timeout → rec' X s = rec X s.

Section Container.

(** The module namespace [globals()]. *)
Variable globals : namespace.

Definition dependency_not_found (name : string) : exn :=
  Exn ValueError ("Dependency " +:+ name +:+ " not found").

(** [self.get_instance(dependency_interface)] in the resolver, where
    [dependency_interface] is whatever [globals()] gave. *)
Definition lookup_dependency (rec : ident -> state -> outcome value)
    (dependency_interface : binding) (s : state) : outcome value :=
  match dependency_interface with
  | Identity X => rec X s
  | NotIdentity e => Raise e s
  end.

(** The loop of [_resolve_constructor_params] over [params.items()],
    [resolved] being [resolved_params] so far. *)
Fixpoint resolve_items (rec : ident -> state -> outcome value)
    (items : dict) (resolved : dict) (s : state) : outcome dict :=
  match items with
  | [] => Ok resolved s
  | (param_name, param_value) :: rest =>
      match back_reference param_value with
      | Some name =>
          match globals !! name with
          | None => Raise (dependency_not_found name) s
          | Some dependency_interface =>
              match lookup_dependency rec dependency_interface s with
              | Ok inst s1 =>
                  resolve_items rec rest (dict_set param_name inst resolved) s1
              | Raise e s1 =>
                  if is_KeyError e then Raise (dependency_not_found name) s1
                  else Raise e s1
              | Timeout => Timeout
              end
          end
      | None =>
          resolve_items rec rest (dict_set param_name param_value resolved) s
      end
  end.

Definition _resolve_constructor_params (rec : ident -> state -> outcome value)
    (params : dict) (s : state) : outcome dict :=
  resolve_items rec params [] s.

(** The call of [factory] with [params] as keyword arguments. *)
Definition call_factory (f : pyfactory) (kwargs : dict) (s : state) : outcome value :=
  match fac_call f kwargs with
  | inl e => Raise e s
  | inr (Existing v) => Ok v s
  | inr (Fresh o) => let '(l, s1) := alloc o s in Ok (VRef l) s1
  end.

(** The setter injection after construction: [instance] is the object at
    [l], not yet shared, with attributes [attrs]. *)
Definition inject_logger (rec : ident -> state -> outcome value)
    (c : pyclass) (l : loc) (attrs : dict) (s : state) : outcome value :=
  match cls_set_logger c with
  | None => Ok (VRef l) s
  | Some set_logger =>
      match rec ILogger s with
      | Ok logger s1 =>
          match set_logger logger attrs with
          | inr attrs' =>
              Ok (VRef l) (set_heap (insert l (Object (cls_name c) attrs')) s1)
          | inl e => if swallowed e then Ok (VRef l) s1 else Raise e s1
          end
      | Raise e s1 => if swallowed e then Ok (VRef l) s1 else Raise e s1
      | Timeout => Timeout
      end
  end.

(** The call of [implementation] with the resolved keyword arguments,
    followed by the injection. *)
Definition construct (rec : ident -> state -> outcome value)
    (c : pyclass) (constructor_params : dict) (s : state) : outcome value :=
  match cls_init c constructor_params with
  | inl e => Raise e s
  | inr attrs =>
      let '(l, s1) := alloc (Object (cls_name c) attrs) s in
      inject_logger rec c l attrs s1
  end.

(** [_create_instance]: the registration is read before the [try], the
    rest runs inside it. *)
Definition _create_instance (rec : ident -> state -> outcome value)
    (interface_type : ident) (s : state) : outcome value :=
  match _registrations s !! interface_type with
  | None => Raise (Exn KeyError ("<class '" +:+ interface_type +:+ "'>")) s
  | Some registration =>
      wrap_failure interface_type
        match strat registration with
        | Factory factory => call_factory factory (params registration) s
        | Implementation implementation =>
            bind (_resolve_constructor_params rec (params registration) s)
                 (construct rec implementation)
        end
  end.

Definition no_registration (interface_type : ident) : exn :=
  Exn ValueError ("No registration found for " +:+ interface_type).

Definition out_of_scope : exn :=
  Exn RuntimeError "Cannot get scoped instance outside of a scope".

(** The body of [get_instance], [rec] standing for its nested calls.  The
    check of the registration comes before the [try]; everything after it,
    the out-of-scope [raise] included, is inside.  After an insertion the
    [return] reads the entry just written, the instance built. *)
Definition get_instance_body (rec : ident -> state -> outcome value)
    (interface_type : ident) (s : state) : outcome value :=
  match _registrations s !! interface_type with
  | None => Raise (no_registration interface_type) s
  | Some registration =>
      wrap_failure interface_type
        (if String.eqb (life_style registration) LifeStyle.Singleton then
           match _singleton_instances s !! interface_type with
           | Some v => Ok v s
           | None =>
               bind (_create_instance rec interface_type s) (fun v s1 =>
                 Ok v (set_singleton_instances (insert interface_type v) s1))
           end
         else if String.eqb (life_style registration) LifeStyle.Scoped then
           if _in_scope s then
             match _scoped_instances s !! interface_type with
             | Some v => Ok v s
             | None =>
                 bind (_create_instance rec interface_type s) (fun v s1 =>
                   Ok v (set_scoped_instances (insert interface_type v) s1))
             end
           else Raise out_of_scope s
         else
           _create_instance rec interface_type s)
  end.

(** [fuel] bounds the depth of nested [get_instance] calls. *)
Fixpoint get_instance (fuel : nat) (interface_type : ident) (s : state)
    : outcome value :=
  match fuel with
  | 0 => Timeout
  | S fuel' => get_instance_body (get_instance fuel') interface_type s
  end.

(** [get_instance] with the lookups of [barred] taken out: a call that
    comes to a lookup of [barred] has no outcome.  A build that has an
    outcome when its nested lookups are replaced by these made no nested
    lookup of [barred]. *)
Fixpoint get_instance_without (barred : ident) (fuel : nat)
    (interface_type : ident) (s : state) : outcome value :=
  match fuel with
  | 0 => Timeout
  | S fuel' =>
      if decide (interface_type = barred) then Timeout
      else get_instance_body (get_instance_without barred fuel') interface_type s
  end.

(** The identities [_create_instance] asks [get_instance] for when it builds
    a registration: the back-references of its parameters that [globals()]
    binds to an identity and, for a class with a [set_logger] method,
    [ILogger]. *)
Definition referenced (params : dict) : list ident :=
  omap (fun '(_, v) =>
          back_reference v ≫= fun name => globals !! name ≫= identity_of)
       params.

Definition deps_of (r : registration) : list ident :=
  match strat r with
  | Factory _ => []
  | Implementation c =>
      referenced (params r) ++
      match cls_set_logger c with Some _ => [ILogger] | None => [] end
  end.

(** The registrations are acyclic: [rank] decreases along dependencies. *)
Definition ranked (rank : ident -> nat) (s : state) : Prop :=
  ∀ X r D, _registrations s !! X = Some r → D ∈ deps_of r → rank D < rank X.

Definition ranked_b (rank : ident -> nat) (s : state) : bool :=
  forallb (fun '(X, r) => forallb (fun D => rank D <? rank X) (deps_of r))
          (map_to_list (_registrations s)).

End Container.

(** ** Scope *)

Module Scope.
Definition __enter__ (s : state) : state :=
  set_scoped_instances (fun _ => ∅) (set_in_scope true s).

Definition __exit__ (s : state) : state :=
  set_scoped_instances (fun _ => ∅) (set_in_scope false s).
End Scope.

(** [with injector.scope(): body]: [__exit__] returns [None], so an
    exception of the body propagates after the exit. *)
Definition with_scope {A} (body : state -> outcome A) (s : state) : outcome A :=
  match body (Scope.__enter__ s) with
  | Ok a s' => Ok a (Scope.__exit__ s')
  | Raise e s' => Raise e (Scope.__exit__ s')
  | Timeout => Timeout
  end.

(** ** Sequences of operations on one injector

    What a caller can do with an injector, one call after the other; an
    exception of a call is the caller's to handle and the injector goes on
    from the state the call left. *)

Inductive op :=
| OpRegister (interface_type : ident) (impl : implementation)
             (life_style : string) (params : option dict)
| OpGetInstance (interface_type : ident)
| OpEnter
| OpExit.

Definition step (globals : namespace) (fuel : nat) (o : op) (s : state)
    : option state :=
  match o with
  | OpRegister X impl ls ps => final_state (register X impl ls ps s)
  | OpGetInstance X => final_state (get_instance globals fuel X s)
  | OpEnter => Some (Scope.__enter__ s)
  | OpExit => Some (Scope.__exit__ s)
  end.

Fixpoint run (globals : namespace) (fuel : nat) (ops : list op) (s : state)
    : option state :=
  match ops with
  | [] => Some s
  | o :: ops' =>
      match step globals fuel o s with
      | Some s' => run globals fuel ops' s'
      | None => None
      end
  end.

(** The number of [Scope] guards entered and not yet left, after [ops],
    when [n] were open before. *)
Fixpoint active_scopes (ops : list op) (n : nat) : nat :=
  match ops with
  | [] => n
  | OpEnter :: ops' => active_scopes ops' (S n)
  | OpExit :: ops' => active_scopes ops' (pred n)
  | _ :: ops' => active_scopes ops' n
  end.

(** The flag [_in_scope] as the scope operations of [ops] leave it. *)
Fixpoint scope_flag (ops : list op) (b : bool) : bool :=
  match ops with
  | [] => b
  | OpEnter :: ops' => scope_flag ops' true
  | OpExit :: ops' => scope_flag ops' false
  | _ :: ops' => scope_flag ops' b
  end.

(** No scope is entered while another is open, and none is left that was
    not entered; [b] tells whether one is open at the start. *)
Fixpoint alternating (ops : list op) (b : bool) : bool :=
  match ops with
  | [] => true
  | OpEnter :: ops' => negb b && alternating ops' true
  | OpExit :: ops' => b && alternating ops' false
  | _ :: ops' => alternating ops' b
  end.

(** ** The services of the module *)

(** The names of the missing arguments as CPython lists them:
    ['a'], ['a' and 'b'], ['a', 'b', and 'c']. *)
Fixpoint comma_names (names : list string) : string :=
  match names with
  | [] => ""
  | [k] => "and '" +:+ k +:+ "'"
  | k :: rest => "'" +:+ k +:+ "', " +:+ comma_names rest
  end.

Definition quoted_names (names : list string) : string :=
  match names with
  | [k] => "'" +:+ k +:+ "'"
  | [k1; k2] => "'" +:+ k1 +:+ "' and '" +:+ k2 +:+ "'"
  | _ => comma_names names
  end.

(** Binding of keyword arguments against a signature of [required]
    parameters and [optional] ones with their defaults: an unexpected
    keyword is reported first, then the missing arguments.  The messages
    are those of CPython 3.10 and later. *)
Definition bind_kwargs (callee : string) (required : list string)
    (optional : dict) (kwargs : dict) : exn + dict :=
  let known := required ++ dict_keys optional in
  match filter (fun k => k ∉ known) (dict_keys kwargs) with
  | k :: _ =>
      inl (Exn TypeError
             (callee +:+ " got an unexpected keyword argument '" +:+ k +:+ "'"))
  | [] =>
      match filter (fun k => k ∉ dict_keys kwargs) required with
      | k :: ks =>
          inl (Exn TypeError
                 (callee +:+ " missing " +:+ pretty (length (k :: ks)) +:+
                  " required positional argument" +:+
                  (if ks is [] then "" else "s") +:+ ": " +:+
                  quoted_names (k :: ks)))
      | [] =>
          inr (map (fun k => (k, default VNone (dict_get k kwargs))) required ++
               map (fun '(k, d) => (k, default d (dict_get k kwargs))) optional)
      end
  end.

(** A class without [__init__] of its own: [object.__init__]. *)
Definition no_init (cname : string) (kwargs : dict) : exn + dict :=
  match kwargs with
  | [] => inr []
  | _ :: _ => inl (Exn TypeError (cname +:+ "() takes no arguments"))
  end.

(** [def set_logger(self, logger): self._logger = logger]. *)
Definition store_logger (logger : value) (attrs : dict) : exn + dict :=
  inr (dict_set "_logger" logger attrs).

Definition ConsoleLogger : pyclass :=
  PyClass "ConsoleLogger" (no_init "ConsoleLogger") None.

Definition FileLogger : pyclass :=
  PyClass "FileLogger"
    (bind_kwargs "FileLogger.__init__()" [] [("filename", VStr "app.log")])
    None.

Definition SqlDatabase : pyclass :=
  PyClass "SqlDatabase"
    (fun kwargs =>
       match bind_kwargs "SqlDatabase.__init__()" ["connection_string"]
                         [("logger", VNone)] kwargs with
       | inl e => inl e
       | inr a =>
           inr [("connection_string", default VNone (dict_get "connection_string" a));
                ("_logger", default VNone (dict_get "logger" a))]
       end)
    (Some store_logger).

Definition MockDatabase : pyclass :=
  PyClass "MockDatabase" (no_init "MockDatabase") None.

Definition SmtpEmailService : pyclass :=
  PyClass "SmtpEmailService"
    (fun kwargs =>
       match bind_kwargs "SmtpEmailService.__init__()" ["smtp_server"; "smtp_port"]
                         [("logger", VNone)] kwargs with
       | inl e => inl e
       | inr a =>
           inr [("smtp_server", default VNone (dict_get "smtp_server" a));
                ("smtp_port", default VNone (dict_get "smtp_port" a));
                ("_logger", default VNone (dict_get "logger" a))]
       end)
    (Some store_logger).

Definition MockEmailService : pyclass :=
  PyClass "MockEmailService" (no_init "MockEmailService") None.

(** [def create_file_logger(): return FileLogger(filename="custom.log")]. *)
Definition create_file_logger : pyfactory :=
  PyFactory "create_file_logger"
    (fun kwargs =>
       match kwargs with
       | [] => inr (Fresh (Object "FileLogger" [("filename", VStr "custom.log")]))
       | (k, _) :: _ =>
           inl (Exn TypeError
                  ("create_file_logger() got an unexpected keyword argument '"
                   +:+ k +:+ "'"))
       end).

Definition IDatabase : ident := "IDatabase".
Definition IEmailService : ident := "IEmailService".

(** [globals()] of the module once it is imported.  The classes, functions
    and typing forms it binds are hashable and each has as [__name__] the
    name it is bound to.  The names every module has are bound to strings,
    [None], the loader, the module spec and the dictionary of built-ins:
    objects without [__name__], the last two unhashable. *)
Definition no_name (type_name : string) : binding :=
  NotIdentity
    (Exn AttributeError ("'" +:+ type_name +:+ "' object has no attribute '__name__'")).

Definition unhashable (type_name : string) : binding :=
  NotIdentity (Exn TypeError ("unhashable type: '" +:+ type_name +:+ "'")).

Definition module_globals : namespace :=
  list_to_map
    ([("__name__", no_name "str");
      ("__doc__", no_name "NoneType");
      ("__package__", no_name "str");
      ("__loader__", no_name "SourceFileLoader");
      ("__spec__", unhashable "ModuleSpec");
      ("__file__", no_name "str");
      ("__cached__", no_name "str");
      ("__builtins__", unhashable "dict")] ++
     map (fun n => (n, Identity n))
       ["ABC"; "abstractmethod"; "Type"; "Dict"; "Any"; "Callable"; "Optional";
        "TypeVar"; "T"; "LifeStyle"; "Injector"; "Scope";
        "ILogger"; "IDatabase"; "IEmailService";
        "ConsoleLogger"; "FileLogger"; "SqlDatabase"; "MockDatabase";
        "SmtpEmailService"; "MockEmailService";
        "create_file_logger"; "configure_dev"; "configure_prod"; "demo"]).

Definition configure_dev (s : state) : outcome unit :=
  bind (register ILogger (ImplClass ConsoleLogger) LifeStyle.Singleton None s) (fun _ s =>
  bind (register IDatabase (ImplClass MockDatabase) LifeStyle.PerRequest None s) (fun _ s =>
  register IEmailService (ImplClass MockEmailService) LifeStyle.Scoped None s)).

Definition configure_prod (s : state) : outcome unit :=
  bind (register ILogger (ImplFactory create_file_logger) LifeStyle.Singleton None s) (fun _ s =>
  bind (register IDatabase (ImplClass SqlDatabase) LifeStyle.Scoped
          (Some [("connection_string", VStr "server=prod;database=app");
                 ("logger", VStr "@ILogger")]) s) (fun _ s =>
  register IEmailService (ImplClass SmtpEmailService) LifeStyle.Singleton
    (Some [("smtp_server", VStr "smtp.example.com");
           ("smtp_port", VInt 587);
           ("logger", VStr "@ILogger")]) s)).

(** The state an outcome leaves behind. *)
Definition state_of {A} (m : outcome A) : state :=
  default Injector (final_state m).

(** The injector after [configure_dev] and after [configure_prod]. *)
Definition dev : state := state_of (configure_dev Injector).
Definition prod : state := state_of (configure_prod Injector).

(** ** The dispatch of [get_instance], read off its three branches *)

(** The lookup has to build: the cache its life style selects has no entry
    (and, for [Scoped], a scope is active). *)
Definition cache_miss (s : state) (X : ident) (ls : string) : Prop :=
  (ls = LifeStyle.Singleton → _singleton_instances s !! X = None) ∧
  (ls ≠ LifeStyle.Singleton → ls = LifeStyle.Scoped →
     _in_scope s = true ∧ _scoped_instances s !! X = None).

(** The insertion that follows a build. *)
Definition cache_instance (ls : string) (X : ident) (v : value) (s : state) : state :=
  if String.eqb ls LifeStyle.Singleton then
    set_singleton_instances (insert X v) s
  else if String.eqb ls LifeStyle.Scoped then
    set_scoped_instances (insert X v) s
  else s.

(** [v] in [s'] is what the strategy of [r] builds from the state [s]: for a
    class, a new object of that class; for a factory, what the factory
    returns on the registered parameters. *)
Definition built_from (r : registration) (s : state) (v : value) (s' : state) : Prop :=
  match strat r with
  | Implementation c =>
      ∃ l o, v = VRef l ∧ length (heap s) ≤ l ∧
             heap s' !! l = Some o ∧ obj_class o = cls_name c
  | Factory f =>
      match fac_call f (params r) with
      | inl _ => False
      | inr (Existing v') => v = v'
      | inr (Fresh o) =>
          ∃ l, v = VRef l ∧ length (heap s) ≤ l ∧ heap s' !! l = Some o
      end
  end.

(** ** Statements that the code does not satisfy

    Each is a reading of a sentence of the specification; the theorems
    below refute it at a concrete injector and prove what holds instead. *)

(** Both lookup-time failures reach the caller as raised. *)
Definition lookup_failures_unwrapped (globals : namespace) : Prop :=
  ∀ fuel X s,
    (_registrations s !! X = None →
       get_instance globals (S fuel) X s = Raise (no_registration X) s) ∧
    (registered_as s LifeStyle.Scoped X → _in_scope s = false →
       get_instance globals (S fuel) X s = Raise out_of_scope s).

(** A factory is called with the resolved parameter map. *)
Definition factory_params_resolved (globals : namespace) : Prop :=
  ∀ fuel X s r f cp s1,
    _registrations s !! X = Some r →
    strat r = Factory f →
    _resolve_constructor_params globals (get_instance globals fuel) (params r) s
      = Ok cp s1 →
    _create_instance globals (get_instance globals fuel) X s
      = wrap_failure X (call_factory f cp s1).

(** [def echo(logger): return logger], a factory that hands back its
    argument. *)
Definition echo : pyfactory :=
  PyFactory "echo"
    (fun kwargs =>
       match bind_kwargs "echo()" ["logger"] [] kwargs with
       | inl e => inl e
       | inr a => inr (Existing (default VNone (dict_get "logger" a)))
       end).

Definition echo_state : state :=
  state_of
    (bind (register ILogger (ImplClass ConsoleLogger) LifeStyle.Singleton None Injector)
       (fun _ s =>
          register IDatabase (ImplFactory echo) LifeStyle.PerRequest
            (Some [("logger", VStr "@ILogger")]) s)).

(** After a second [register] of [X], a lookup of [X] gives an instance
    built from the second registration, whatever was done with the injector
    before. *)
Definition reregistration_reflected (globals : namespace) : Prop :=
  ∀ fuel ops s X impl ls ps st s2 v s3,
    run globals fuel ops Injector = Some s →
    strategy_of impl = Some st →
    register X impl ls ps s = Ok tt s2 →
    get_instance globals fuel X s2 = Ok v s3 →
    built_from (Registration ls (default [] ps) st) s2 v s3.

(** A lookup of a [Singleton] or [Scoped] identity that fails leaves both
    caches as they were. *)
Definition failed_build_leaves_caches (globals : namespace) : Prop :=
  ∀ fuel X s e s',
    registered_as s LifeStyle.Singleton X ∨ registered_as s LifeStyle.Scoped X →
    get_instance globals fuel X s = Raise e s' →
    _singleton_instances s' = _singleton_instances s ∧
    _scoped_instances s' = _scoped_instances s.

(** One successful lookup of a [Singleton] identity with no instance
    cached builds that identity once: the build makes no nested lookup of
    the identity. *)
Definition singleton_built_once (globals : namespace) : Prop :=
  ∀ fuel X s v s1,
    registered_as s LifeStyle.Singleton X →
    _singleton_instances s !! X = None →
    get_instance globals (S fuel) X s = Ok v s1 →
    ∃ s0, _create_instance globals (get_instance_without globals X fuel) X s = Ok v s0.

(** A marker whose identifier cannot be resolved to a service identity,
    because [globals()] does not bind it or binds it to something else,
    makes the resolver raise "Dependency name not found". *)
Definition unresolvable_raises_not_found (globals : namespace) : Prop :=
  ∀ fuel pre k name post s acc s1,
    _resolve_constructor_params globals (get_instance globals fuel) pre s = Ok acc s1 →
    (∀ T, globals !! name ≠ Some (Identity T)) →
    _resolve_constructor_params globals (get_instance globals fuel)
      (pre ++ (k, VStr (String "@"%char name)) :: post) s
    = Raise (dependency_not_found name) s1.

(** [IDatabase] with a logger that resolves and a cache that does not. *)
Definition broken_state : state :=
  state_of
    (bind (register ILogger (ImplClass ConsoleLogger) LifeStyle.Singleton None Injector)
       (fun _ s =>
          register IDatabase (ImplClass SqlDatabase) LifeStyle.Singleton
            (Some [("connection_string", VStr "server=prod;database=app");
                   ("logger", VStr "@ILogger");
                   ("cache", VStr "@ICache")]) s)).

(** The rank that orders the services of the module: the logger first. *)
Definition logger_first (X : ident) : nat :=
  if String.eqb X ILogger then 0 else 1.

(** [IDatabase] as a [SqlDatabase], which has [set_logger], and no logger
    registered. *)
Definition no_logger_state : state :=
  state_of
    (register IDatabase (ImplClass SqlDatabase) LifeStyle.PerRequest
       (Some [("connection_string", VStr "server=dev")]) Injector).

(** No sequence of operations has two scopes open at once. *)
Definition never_two_scopes (globals : namespace) : Prop :=
  ∀ fuel ops s,
    run globals fuel ops Injector = Some s → active_scopes ops 0 ≤ 1.

Definition open_count (b : bool) : nat := if b then 1 else 0.

(** ** Overwriting the cache entries of one identity

    [poke X a b] sets the entry of [X] in the singleton cache to [a] and in
    the scoped cache to [b] ([None] removes it); a call that commutes with
    it does not read these entries. *)
Definition poke (X : ident) (a b : option value) (s : state) : state :=
  set_scoped_instances (partial_alter (fun _ => b) X)
    (set_singleton_instances (partial_alter (fun _ => a) X) s).

Definition map_outcome {A} (f : state -> state) (m : outcome A) : outcome A :=
  match m with
  | Ok a s => Ok a (f s)
  | Raise e s => Raise e (f s)
  | Timeout => Timeout
  end.

(** [X] is registered with neither caching life style. *)
Definition uncached (s : state) (X : ident) : Prop :=
  ¬ registered_as s LifeStyle.Singleton X ∧ ¬ registered_as s LifeStyle.Scoped X.

(** [IDatabase] registered with a life style the module does not define. *)
Definition transient_state : state :=
  state_of (register IDatabase (ImplClass MockDatabase) "Transient" None Injector).

(** A lookup of an identity registered with neither caching life style
    leaves both caches as they were. *)
Definition uncached_lookup_leaves_caches (globals : namespace) : Prop :=
  ∀ fuel X r s s',
    _registrations s !! X = Some r →
    life_style r ≠ LifeStyle.Singleton →
    life_style r ≠ LifeStyle.Scoped →
    final_state (get_instance globals fuel X s) = Some s' →
    _singleton_instances s' = _singleton_instances s ∧
    _scoped_instances s' = _scoped_instances s.

(** A [PerRequest] [SqlDatabase] beside a [Singleton] logger. *)
Definition per_request_state : state :=
  state_of
    (bind (register ILogger (ImplClass ConsoleLogger) LifeStyle.Singleton None Injector)
       (fun _ s =>
          register IDatabase (ImplClass SqlDatabase) LifeStyle.PerRequest
            (Some [("connection_string", VStr "server=dev")]) s)).

(** ** A cyclic configuration

    [IReport] needs a source, the source takes the logger through
    [set_logger], and the logger needs a probe and the report again.  The
    constructors of [Probe] and [Report] answer differently from one call
    to the next, as a constructor that keeps a count of its calls would;
    here the difference is read off the reference they are given. *)
Definition Token : pyclass := PyClass "Token" (no_init "Token") None.

Definition Probe : pyclass :=
  PyClass "Probe"
    (fun kwargs =>
       match dict_get "token" kwargs with
       | Some (VRef l) =>
           if l <=? 1 then inr kwargs else inl (Exn ValueError "probe exhausted")
       | _ => inl (Exn TypeError "Probe.__init__() missing 1 required positional argument: 'token'")
       end)
    None.

Definition Source : pyclass := PyClass "Source" (no_init "Source") (Some store_logger).

Definition ChainLogger : pyclass :=
  PyClass "ChainLogger" (bind_kwargs "ChainLogger.__init__()" ["probe"; "report"] []) None.

Definition Report : pyclass :=
  PyClass "Report"
    (fun kwargs =>
       match dict_get "source" kwargs with
       | Some (VRef 0) => inl (Exn ValueError "stale source")
       | Some _ => inr kwargs
       | None => inl (Exn TypeError "Report.__init__() missing 1 required positional argument: 'source'")
       end)
    None.

Definition cyclic_globals : namespace :=
  list_to_map
    (map (fun n => (n, Identity n)) ["ILogger"; "IReport"; "ISource"; "IProbe"; "IToken"]).

Definition cyclic_state : state :=
  default Injector
    (run cyclic_globals 0
       [OpRegister "IToken" (ImplClass Token) LifeStyle.PerRequest None;
        OpRegister "IProbe" (ImplClass Probe) LifeStyle.PerRequest
          (Some [("token", VStr "@IToken")]);
        OpRegister "ISource" (ImplClass Source) LifeStyle.PerRequest None;
        OpRegister ILogger (ImplClass ChainLogger) LifeStyle.PerRequest
          (Some [("probe", VStr "@IProbe"); ("report", VStr "@IReport")]);
        OpRegister "IReport" (ImplClass Report) LifeStyle.Singleton
          (Some [("source", VStr "@ISource")])]
       Injector).

(** The same cycle with a report whose constructor accepts any source:
    [def __init__(self, source): self.source = source]. *)
Definition OpenReport : pyclass :=
  PyClass "Report" (bind_kwargs "Report.__init__()" ["source"] []) None.

Definition reentrant_state : state :=
  default Injector
    (run cyclic_globals 0
       [OpRegister "IReport" (ImplClass OpenReport) LifeStyle.Singleton
          (Some [("source", VStr "@ISource")])]
       cyclic_state).

(** ** What a lookup leaves alone when the registrations are acyclic *)

(** The entries of the identities ranked above [X] are as before. *)
Definition above_untouched (globals : namespace) (rank : ident -> nat)
    (X : ident) (s s' : state) : Prop :=
  extends s s' ∧
  (ranked globals rank s → ∀ Z, rank X < rank Z →
     _singleton_instances s' !! Z = _singleton_instances s !! Z ∧
     _scoped_instances s' !! Z = _scoped_instances s !! Z).

(** The entries of [X] itself are as before. *)
Definition own_untouched (globals : namespace) (rank : ident -> nat)
    (X : ident) (s s' : state) : Prop :=
  extends s s' ∧
  (ranked globals rank s →
     _singleton_instances s' !! X = _singleton_instances s !! X ∧
     _scoped_instances s' !! X = _scoped_instances s !! X).

(** ** Notions for the further properties *)

(** No operation of [ops] enters or leaves a scope. *)
Definition scope_free (ops : list op) : bool :=
  forallb (fun o => match o with OpEnter | OpExit => false | _ => true end) ops.

(** No value of [ps] is a back-reference marker. *)
Definition literal_params (ps : dict) : bool :=
  forallb (fun kv => match back_reference kv.2 with Some _ => false | None => true end) ps.

(** What holds of every state an injector can be in: outside a scope the
    scoped cache is empty, and only registered identities are cached. *)
Record well_formed (s : state) : Prop := WellFormed {
  wf_outside : _in_scope s = false → _scoped_instances s = ∅;
  wf_singleton : ∀ Y, is_Some (_singleton_instances s !! Y) →
                      is_Some (_registrations s !! Y);
  wf_scoped : ∀ Y, is_Some (_scoped_instances s !! Y) →
                   is_Some (_registrations s !! Y)
}.



(** A class whose [set_logger] is left to its subclasses:
    [def set_logger(self, logger): raise NotImplementedError("set_logger")].
    [NotImplementedError] derives from [RuntimeError]. *)
Definition NotImplementedError : exn_kind := Derived "NotImplementedError" RuntimeError.



(** Two services whose first back-reference leads nowhere: [ILogger] is a
    name of the module but is not registered, [ICache] is no name of it. *)
Definition dangling_state : state :=
  state_of
    (bind (register IDatabase (ImplClass SqlDatabase) LifeStyle.Singleton
             (Some [("connection_string", VStr "server=dev");
                    ("logger", VStr "@ILogger")]) Injector)
       (fun _ s =>
          register IEmailService (ImplClass SmtpEmailService) LifeStyle.PerRequest
            (Some [("smtp_server", VStr "smtp.example.com");
                   ("cache", VStr "@ICache")]) s)).

(** ** Basic facts *)

Lemma dict_get_set_eq k v d : dict_get k (dict_set k v d) = Some v.
Proof.
  induction d as [|[k' v'] d IH]; simpl.
  - by rewrite String.eqb_refl.
  - destruct (String.eqb k k') eqn:E; simpl; rewrite ?String.eqb_refl, ?E; done.
Qed.

Lemma dict_get_set_ne k k' v d : k ≠ k' → dict_get k' (dict_set k v d) = dict_get k' d.
Proof.
  intros Hne. induction d as [|[k0 v0] d IH]; simpl.
  - destruct (String.eqb_spec k' k); congruence.
  - destruct (String.eqb_spec k k0) as [->|]; simpl.
    + destruct (String.eqb_spec k' k0); congruence.
    + by rewrite IH.
Qed.

Lemma wrap_failure_Ok {A} X (m : outcome A) a s :
  wrap_failure X m = Ok a s ↔ m = Ok a s.
Proof. destruct m; simpl; split; congruence. Qed.

Lemma wrap_failure_Raise {A} X (m : outcome A) e s :
  wrap_failure X m = Raise e s ↔ ∃ e0, m = Raise e0 s ∧ e = creation_failure X e0.
Proof.
  destruct m as [a1 s1|e1 s1|]; simpl; split; try congruence;
    try (by intros (? & ? & ?)).
  - intros [= <- <-]. eauto.
  - intros (e0 & [= -> ->] & ->). done.
Qed.

Lemma wrap_failure_Timeout {A} X (m : outcome A) :
  wrap_failure X m = Timeout ↔ m = Timeout.
Proof. destruct m; simpl; split; congruence. Qed.

Lemma final_state_wrap_failure {A} X (m : outcome A) :
  final_state (wrap_failure X m) = final_state m.
Proof. by destruct m. Qed.

Example bind_kwargs_missing :
  cls_init SmtpEmailService [("logger", VNone)] =
    inl (Exn TypeError
           "SmtpEmailService.__init__() missing 2 required positional arguments: 'smtp_server' and 'smtp_port'").
Proof. reflexivity. Qed.

Section Properties.

Variable globals : namespace.

Abbreviation resolve_items := (resolve_items globals).
Abbreviation _resolve_constructor_params := (_resolve_constructor_params globals).
Abbreviation _create_instance := (_create_instance globals).
Abbreviation get_instance_body := (get_instance_body globals).
Abbreviation get_instance := (get_instance globals).

(** *** The exceptions [get_instance] can raise *)

Lemma get_instance_body_raises rec X s e s' :
  get_instance_body rec X s = Raise e s' →
  (_registrations s !! X = None ∧ s' = s ∧
     e = Exn ValueError ("No registration found for " +:+ X)) ∨
  (is_Some (_registrations s !! X) ∧ ∃ e0, e = creation_failure X e0).
Proof.
  unfold get_instance_body. destruct (_registrations s !! X) as [r|] eqn:Hr.
  - intros (e0 & _ & ->)%wrap_failure_Raise. right. eauto.
  - intros [= <- <-]. by left.
Qed.

Lemma get_instance_raises fuel X s e s' :
  get_instance fuel X s = Raise e s' → swallowed e = true ∧ is_KeyError e = false.
Proof.
  destruct fuel as [|n]; [done|]. simpl.
  intros [(_ & _ & ->)|(_ & e0 & ->)]%get_instance_body_raises; done.
Qed.

(** *** More fuel does not change a result *)

Lemma resolve_items_mono rec rec' :
  refines rec rec' → ∀ items resolved s,
  resolve_items rec items resolved s ≠ Timeout →
  resolve_items rec' items resolved s = resolve_items rec items resolved s.
Proof.
  intros Href. induction items as [|[k v] items IH]; intros resolved s; simpl; [done|].
  destruct (back_reference v) as [name|]; [|by apply IH].
  destruct (globals !! name) as [[D|e0]|]; [|done|done]. simpl.
  destruct (rec D s) as [inst s1|e s1|] eqn:E; [| |done];
    intros H; rewrite (Href D s), E by congruence; [by apply IH|done].
Qed.

Lemma inject_logger_mono rec rec' c l attrs s :
  refines rec rec' →
  inject_logger rec c l attrs s ≠ Timeout →
  inject_logger rec' c l attrs s = inject_logger rec c l attrs s.
Proof.
  intros Href. unfold inject_logger. destruct (cls_set_logger c); [|done].
  destruct (rec ILogger s) eqn:E; [| |done]; intros _; by rewrite (Href ILogger s), E by congruence.
Qed.

Lemma construct_mono rec rec' c cp s :
  refines rec rec' →
  construct rec c cp s ≠ Timeout →
  construct rec' c cp s = construct rec c cp s.
Proof.
  intros Href. unfold construct. destruct (cls_init c cp); [done|].
  simpl. by apply inject_logger_mono.
Qed.

Lemma create_instance_mono rec rec' X s :
  refines rec rec' →
  _create_instance rec X s ≠ Timeout →
  _create_instance rec' X s = _create_instance rec X s.
Proof.
  intros Href. unfold _create_instance.
  destruct (_registrations s !! X) as [r|]; [|done].
  destruct (strat r) as [f|c]; [done|].
  rewrite wrap_failure_Timeout. unfold _resolve_constructor_params. intros H.
  f_equal. rewrite (resolve_items_mono rec rec' Href).
  - destruct (resolve_items rec (params r) [] s) eqn:E; simpl in *; try done.
    apply construct_mono; done.
  - by destruct (resolve_items rec (params r) [] s).
Qed.

Lemma get_instance_body_mono rec rec' X s :
  refines rec rec' →
  get_instance_body rec X s ≠ Timeout →
  get_instance_body rec' X s = get_instance_body rec X s.
Proof.
  intros Href. unfold get_instance_body.
  destruct (_registrations s !! X) as [r|]; [|done].
  rewrite wrap_failure_Timeout. intros H. f_equal.
  repeat case_match; try done;
    rewrite (create_instance_mono rec rec') by
      (done || by destruct (_create_instance rec X s)); done.
Qed.

Lemma get_instance_S fuel X s :
  get_instance fuel X s ≠ Timeout →
  get_instance (S fuel) X s = get_instance fuel X s.
Proof.
  revert X s. induction fuel as [|n IH]; intros X s; [done|].
  change (get_instance (S (S n)) X s) with (get_instance_body (get_instance (S n)) X s).
  change (get_instance (S n) X s) with (get_instance_body (get_instance n) X s).
  apply get_instance_body_mono. exact IH.
Qed.

Lemma get_instance_mono fuel fuel' X s :
  fuel ≤ fuel' →
  get_instance fuel X s ≠ Timeout →
  get_instance fuel' X s = get_instance fuel X s.
Proof.
  induction 1 as [|m Hle IH]; [done|]. intros H.
  rewrite get_instance_S; rewrite IH; done.
Qed.

(** *** A frame rule for construction

    Whatever relation between the state before and the state after holds of
    the nested [get_instance] calls, survives allocation and the setter's
    update of the object just allocated, holds of [_create_instance]. *)

Section Frame.

Variable Q : state → state → Prop.
Hypothesis Q_refl : ∀ s, Q s s.
Hypothesis Q_trans : ∀ s1 s2 s3, Q s1 s2 → Q s2 s3 → Q s1 s3.
Hypothesis Q_regs : ∀ s s', Q s s' → _registrations s' = _registrations s.
Hypothesis Q_alloc : ∀ s o, Q s (alloc o s).2.
Hypothesis Q_update : ∀ s o s1 o',
  Q (alloc o s).2 s1 → Q s (set_heap (insert (length (heap s)) o') s1).

Variable rec : ident → state → outcome value.
Variable regs : gmap ident registration.

Abbreviation calls_respect deps :=
  (∀ D, D ∈ deps → ∀ s1 s2,
     _registrations s1 = regs → final_state (rec D s1) = Some s2 → Q s1 s2).

Lemma resolve_items_frame items :
  calls_respect (referenced globals items) →
  ∀ resolved s s', _registrations s = regs →
  final_state (resolve_items rec items resolved s) = Some s' → Q s s'.
Proof.
  induction items as [|[k v] items IH]; intros Hrec resolved s s' Hs; simpl.
  { intros [= <-]. apply Q_refl. }
  unfold referenced in Hrec, IH. simpl in Hrec.
  destruct (back_reference v) as [name|]; simpl in Hrec; [|by apply IH].
  destruct (globals !! name) as [[D|e0]|]; simpl in Hrec; cbn [lookup_dependency].
  - assert (Hcall := Hrec D (list_elem_of_here _ _) s).
    destruct (rec D s) as [inst s1|e s1|]; simpl in *; [| |done].
    + intros H. apply (Q_trans _ s1); [by apply Hcall|].
      eapply IH; [|by rewrite (Q_regs s s1) by by apply Hcall|done].
      intros D' HD'. apply Hrec. by right.
    + destruct (is_KeyError e); intros [= <-]; by apply Hcall.
  - destruct (is_KeyError e0); intros [= <-]; apply Q_refl.
  - intros [= <-]. apply Q_refl.
Qed.

Lemma construct_frame c cp s s' :
  calls_respect (match cls_set_logger c with Some _ => [ILogger] | None => [] end) →
  _registrations s = regs →
  final_state (construct rec c cp s) = Some s' → Q s s'.
Proof.
  intros Hrec Hs. unfold construct.
  destruct (cls_init c cp) as [e|attrs]; simpl; [intros [= <-]; apply Q_refl|].
  unfold inject_logger. destruct (cls_set_logger c) as [setter|]; simpl.
  2: { intros [= <-]. apply (Q_alloc s). }
  set (o := Object (cls_name c) attrs).
  assert (Hcall := Hrec ILogger (list_elem_of_here _ _) (alloc o s).2).
  simpl in Hcall.
  destruct (rec ILogger _) as [logger s1|e s1|]; simpl in *; [| |done].
  - destruct (setter logger attrs) as [e|attrs'].
    + assert (Q s s1) by (eapply Q_trans; [apply (Q_alloc s o)|by apply Hcall]).
      destruct (swallowed e); by intros [= <-].
    + intros [= <-]. apply (Q_update s o). by apply Hcall.
  - assert (Q s s1) by (eapply Q_trans; [apply (Q_alloc s o)|by apply Hcall]).
    destruct (swallowed e); by intros [= <-].
Qed.

Lemma create_instance_frame X r s s' :
  _registrations s = regs →
  regs !! X = Some r →
  calls_respect (deps_of globals r) →
  final_state (_create_instance rec X s) = Some s' → Q s s'.
Proof.
  intros Hs Hr Hrec. unfold _create_instance. rewrite Hs, Hr.
  rewrite final_state_wrap_failure. unfold deps_of in Hrec.
  destruct (strat r) as [f|c].
  - unfold call_factory. destruct (fac_call f (params r)) as [e|[o|v]]; simpl;
      intros [= <-]; [apply Q_refl|apply (Q_alloc s)|apply Q_refl].
  - unfold _resolve_constructor_params.
    destruct (resolve_items rec (params r) [] s) as [cp s1|e s1|] eqn:E; simpl; [| |done].
    + intros H. apply (Q_trans _ s1).
      * eapply resolve_items_frame; [|done|by rewrite E].
        intros D HD. apply Hrec. apply elem_of_app. by left.
      * eapply construct_frame; [|by rewrite <- Hs; apply Q_regs;
          eapply resolve_items_frame; [|done|by rewrite E];
          intros D HD; apply Hrec; apply elem_of_app; left|done].
        intros D HD. apply Hrec. apply elem_of_app. by right.
    + intros [= <-]. eapply resolve_items_frame; [|done|by rewrite E].
      intros D HD. apply Hrec. apply elem_of_app. by left.
Qed.

End Frame.

(** *** The frame rule for [get_instance]

    A relation indexed by the identity asked for: it passes from a
    dependency to its dependent and survives the insertion into the cache
    that [get_instance] makes after a build. *)

Section Invariant.

Variable R : ident → state → state → Prop.
Hypothesis R_refl : ∀ X s, R X s s.
Hypothesis R_trans : ∀ X s1 s2 s3, R X s1 s2 → R X s2 s3 → R X s1 s3.
Hypothesis R_regs : ∀ X s s', R X s s' → _registrations s' = _registrations s.
Hypothesis R_alloc : ∀ X s o, R X s (alloc o s).2.
Hypothesis R_update : ∀ X s o s1 o',
  R X (alloc o s).2 s1 → R X s (set_heap (insert (length (heap s)) o') s1).
Hypothesis R_dep : ∀ X D r s1 s2,
  _registrations s1 !! X = Some r → D ∈ deps_of globals r → R D s1 s2 → R X s1 s2.
Hypothesis R_singleton : ∀ X r s s1 v,
  _registrations s !! X = Some r →
  life_style r = LifeStyle.Singleton →
  _singleton_instances s !! X = None →
  R X s s1 → R X s (set_singleton_instances (insert X v) s1).
Hypothesis R_scoped : ∀ X r s s1 v,
  _registrations s !! X = Some r →
  life_style r = LifeStyle.Scoped →
  _in_scope s = true →
  _scoped_instances s !! X = None →
  R X s s1 → R X s (set_scoped_instances (insert X v) s1).

Lemma create_instance_invariant rec X r s s' :
  (∀ D s1 s2, final_state (rec D s1) = Some s2 → R D s1 s2) →
  _registrations s !! X = Some r →
  final_state (_create_instance rec X s) = Some s' → R X s s'.
Proof.
  intros Hrec Hr.
  apply (create_instance_frame (R X) (R_refl X) (R_trans X) (R_regs X)
           (R_alloc X) (R_update X) rec (_registrations s) X r); [done..|].
  intros D HD s1 s2 Hs1 H. apply (R_dep X D r); [by rewrite Hs1|done|by apply Hrec].
Qed.

Lemma get_instance_body_invariant rec X s s' :
  (∀ D s1 s2, final_state (rec D s1) = Some s2 → R D s1 s2) →
  final_state (get_instance_body rec X s) = Some s' → R X s s'.
Proof.
  intros Hrec. unfold get_instance_body.
  destruct (_registrations s !! X) as [r|] eqn:Hr; [|by intros [= <-]].
  rewrite final_state_wrap_failure.
  assert (Hbuild := create_instance_invariant rec X r s).
  destruct (String.eqb_spec (life_style r) LifeStyle.Singleton) as [Hls|Hls].
  { destruct (_singleton_instances s !! X) as [v|] eqn:Hc; [by intros [= <-]|].
    destruct (_create_instance rec X s) as [v s1|e s1|]; simpl in *; [| |done].
    - intros [= <-]. eapply R_singleton; eauto.
    - intros [= <-]. eauto. }
  destruct (String.eqb_spec (life_style r) LifeStyle.Scoped) as [Hsc|Hsc]; [|by eauto].
  destruct (_in_scope s) eqn:Hin; [|by intros [= <-]].
  destruct (_scoped_instances s !! X) as [v|] eqn:Hc; [by intros [= <-]|].
  destruct (_create_instance rec X s) as [v s1|e s1|]; simpl in *; [| |done].
  - intros [= <-]. eapply R_scoped; eauto.
  - intros [= <-]. eauto.
Qed.

Lemma get_instance_invariant fuel X s s' :
  final_state (get_instance fuel X s) = Some s' → R X s s'.
Proof.
  revert X s s'. induction fuel as [|n IH]; intros X s s'; [done|].
  simpl. apply get_instance_body_invariant. exact IH.
Qed.

End Invariant.

(** *** What every lookup preserves *)

Lemma extends_refl s : extends s s.
Proof. split; auto. Qed.

Lemma extends_trans s1 s2 s3 : extends s1 s2 → extends s2 s3 → extends s1 s3.
Proof.
  intros [Hr1 Hi1 Hh1 Hs1 Hc1] [Hr2 Hi2 Hh2 Hs2 Hc2]. split.
  - congruence.
  - congruence.
  - by etrans.
  - intros Y. destruct (Hs1 Y) as [E1|?]; [|by right].
    destruct (Hs2 Y) as [E2|(E2 & r & Hr & Hls)]; [left; congruence|].
    right. split; [congruence|]. exists r. by rewrite <- Hr1.
  - intros Y. destruct (Hc1 Y) as [E1|?]; [|by right].
    destruct (Hc2 Y) as [E2|(E2 & (r & Hr & Hls) & Hin)]; [left; congruence|].
    right. split_and!; [congruence| |congruence]. exists r. by rewrite <- Hr1.
Qed.

Lemma extends_alloc s o : extends s (alloc o s).2.
Proof. split; simpl; auto. by apply prefix_app_r. Qed.

Lemma extends_update s o s1 o' :
  extends (alloc o s).2 s1 → extends s (set_heap (insert (length (heap s)) o') s1).
Proof.
  intros [Hr Hi [k Hh] Hs Hc]. split; simpl in *; auto.
  rewrite Hh, <- (assoc_L (++)), insert_app_r_alt, Nat.sub_diag by done.
  simpl. by apply prefix_app_r.
Qed.

Lemma extends_singleton X r s s1 v :
  _registrations s !! X = Some r →
  life_style r = LifeStyle.Singleton →
  _singleton_instances s !! X = None →
  extends s s1 → extends s (set_singleton_instances (insert X v) s1).
Proof.
  intros Hr Hls Hc [Hr1 Hi1 Hh1 Hs1 Hc1]. split; simpl; auto.
  intros Y. destruct (decide (X = Y)) as [<-|Hne].
  - right. split; [done|]. by exists r.
  - rewrite lookup_insert_ne by done. apply Hs1.
Qed.

Lemma extends_scoped X r s s1 v :
  _registrations s !! X = Some r →
  life_style r = LifeStyle.Scoped →
  _in_scope s = true →
  _scoped_instances s !! X = None →
  extends s s1 → extends s (set_scoped_instances (insert X v) s1).
Proof.
  intros Hr Hls Hin Hc [Hr1 Hi1 Hh1 Hs1 Hc1]. split; simpl; auto.
  intros Y. destruct (decide (X = Y)) as [<-|Hne].
  - right. split_and!; [done| |done]. by exists r.
  - rewrite lookup_insert_ne by done. apply Hc1.
Qed.

Lemma get_instance_extends fuel X s s' :
  final_state (get_instance fuel X s) = Some s' → extends s s'.
Proof.
  apply (get_instance_invariant (fun _ => extends)); clear.
  - intros _. apply extends_refl.
  - intros _. apply extends_trans.
  - intros _ s s'. apply ext_registrations.
  - intros _. apply extends_alloc.
  - intros _. apply extends_update.
  - done.
  - intros X. apply extends_singleton.
  - intros X. apply extends_scoped.
Qed.

Lemma resolve_items_registrations rec :
  (∀ Y s s', final_state (rec Y s) = Some s' → _registrations s' = _registrations s) →
  ∀ items acc s s',
  final_state (resolve_items rec items acc s) = Some s' →
  _registrations s' = _registrations s.
Proof.
  intros rec_registrations.
  induction items as [|[k v] items IH]; intros acc s s'; simpl.
  { by intros [= <-]. }
  destruct (back_reference v) as [name|]; [|by apply IH].
  destruct (globals !! name) as [[D|e0]|]; cbn [lookup_dependency];
    [|by destruct (is_KeyError e0); intros [= <-]|by intros [= <-]].
  destruct (rec D s) as [inst s1|e s1|] eqn:E; simpl; [| |done].
  - intros H. rewrite (IH _ _ _ H). apply (rec_registrations D). by rewrite E.
  - intros H. apply (rec_registrations D). rewrite E.
    by destruct (is_KeyError e).
Qed.

(** *** What a build returns *)

Lemma resolve_extends fuel ps s s1 :
  final_state (_resolve_constructor_params (get_instance fuel) ps s) = Some s1 →
  extends s s1.
Proof.
  apply (resolve_items_frame extends extends_refl extends_trans ext_registrations
           (get_instance fuel) (_registrations s)); [|done].
  intros D _ s1' s2' _. apply get_instance_extends.
Qed.

Lemma lookup_alloc o s : heap (alloc o s).2 !! length (heap s) = Some o.
Proof. simpl. by rewrite list_lookup_middle. Qed.

Lemma construct_result fuel c cp s v s' :
  construct (get_instance fuel) c cp s = Ok v s' →
  ∃ o, v = VRef (length (heap s)) ∧ heap s' !! length (heap s) = Some o ∧
       obj_class o = cls_name c ∧ extends s s'.
Proof.
  unfold construct. destruct (cls_init c cp) as [e|attrs]; [done|]. simpl.
  set (o := Object (cls_name c) attrs).
  change (set_heap _ s) with (alloc o s).2.
  unfold inject_logger. destruct (cls_set_logger c) as [setter|].
  2: { intros [= <- <-]. exists o.
       split_and!; [done|apply lookup_alloc|done|apply extends_alloc]. }
  destruct (get_instance fuel ILogger (alloc o s).2) as [logger s1|e s1|] eqn:E; [| |done].
  all: assert (Hext : extends (alloc o s).2 s1)
         by (apply (get_instance_extends fuel ILogger); by rewrite E).
  all: assert (Hl : heap s1 !! length (heap s) = Some o)
         by (eapply prefix_lookup_Some; [apply lookup_alloc|apply Hext]).
  all: assert (Hs : extends s s1)
         by (eapply extends_trans; [apply (extends_alloc s o)|done]).
  - destruct (setter logger attrs) as [e|attrs'].
    + destruct (swallowed e); [|done]. intros [= <- <-]. exists o. by split_and!.
    + intros [= <- <-]. exists (Object (cls_name c) attrs').
      split_and!; [done| |done|by eapply extends_update].
      simpl. apply list_lookup_insert_eq. by eapply lookup_lt_Some.
  - destruct (swallowed e); [|done]. intros [= <- <-]. exists o. by split_and!.
Qed.

Lemma create_instance_built fuel X r s v s' :
  _registrations s !! X = Some r →
  _create_instance (get_instance fuel) X s = Ok v s' →
  built_from r s v s'.
Proof.
  intros Hr. unfold _create_instance, built_from. rewrite Hr, wrap_failure_Ok.
  destruct (strat r) as [f|c].
  - unfold call_factory. destruct (fac_call f (params r)) as [e|[o|v']]; [done| |].
    + intros [= <- <-]. exists (length (heap s)). split_and!; [done..|].
      apply lookup_alloc.
    + by intros [= <- <-].
  - destruct (_resolve_constructor_params (get_instance fuel) (params r) s)
      as [cp s1|e s1|] eqn:E; [|done..]. simpl.
    intros (o & -> & Hl & Hc & _)%construct_result.
    exists (length (heap s1)), o. split_and!; [done| |done..].
    apply prefix_length, (ext_heap s s1), (resolve_extends fuel (params r)).
    by rewrite E.
Qed.

Lemma heap_cache_instance ls X v s : heap (cache_instance ls X v s) = heap s.
Proof. unfold cache_instance. by repeat case_match. Qed.

Lemma built_from_cache_instance r s v s' ls X v' :
  built_from r s v s' → built_from r s v (cache_instance ls X v' s').
Proof. unfold built_from. by rewrite heap_cache_instance. Qed.

(** The lookup that has to build: build, then insert as the life style says. *)
Lemma get_instance_body_miss rec X s r :
  _registrations s !! X = Some r →
  cache_miss s X (life_style r) →
  get_instance_body rec X s =
    wrap_failure X
      (bind (_create_instance rec X s) (fun v s1 =>
         Ok v (cache_instance (life_style r) X v s1))).
Proof.
  intros Hr [Hsingle Hscoped]. unfold get_instance_body, cache_instance. rewrite Hr.
  destruct (String.eqb_spec (life_style r) LifeStyle.Singleton) as [Hls|Hls].
  { by rewrite (Hsingle Hls). }
  destruct (String.eqb_spec (life_style r) LifeStyle.Scoped) as [Hsc|Hsc].
  { destruct (Hscoped Hls Hsc) as [-> ->]. done. }
  by destruct (_create_instance rec X s).
Qed.

Lemma get_instance_built fuel X r s v s' :
  _registrations s !! X = Some r →
  cache_miss s X (life_style r) →
  get_instance fuel X s = Ok v s' →
  built_from r s v s'.
Proof.
  intros Hr Hmiss. destruct fuel as [|n]; [done|]. simpl.
  rewrite (get_instance_body_miss _ X s r Hr Hmiss), wrap_failure_Ok.
  destruct (_create_instance (get_instance n) X s) as [v1 s1|e s1|] eqn:E; [|done..].
  simpl. intros [= <- <-]. apply built_from_cache_instance.
  by apply (create_instance_built n X).
Qed.

(** *** Lookup-time failures *)

Lemma get_instance_unregistered fuel X s :
  _registrations s !! X = None →
  get_instance (S fuel) X s = Raise (no_registration X) s.
Proof. intros H. simpl. unfold get_instance_body. by rewrite H. Qed.

Lemma get_instance_out_of_scope fuel X s :
  registered_as s LifeStyle.Scoped X → _in_scope s = false →
  get_instance (S fuel) X s = Raise (creation_failure X out_of_scope) s.
Proof.
  intros (r & Hr & Hls) Hin. simpl. unfold get_instance_body.
  by rewrite Hr, Hls, Hin.
Qed.

Lemma creation_failure_neq X e e' :
  exn_str e' = "Cannot get scoped instance outside of a scope" →
  creation_failure X e ≠ e'.
Proof.
  intros He' H. apply (f_equal exn_str) in H. rewrite He' in H.
  unfold creation_failure in H. cbv in H. discriminate.
Qed.

(** C1 (as amended): a lookup of an identity without registration raises
    the [ValueError] of the lookup itself, unwrapped and with the state
    untouched; a lookup of a [Scoped] identity while no scope is active
    raises a [RuntimeError] too, but the one of the construction-failure
    handler of [get_instance], which wraps the text of the out-of-scope
    error: the caller does not receive the out-of-scope error as raised. *)
Theorem lookup_failures fuel X s :
  (_registrations s !! X = None →
     get_instance (S fuel) X s = Raise (no_registration X) s ∧
     exn_class (no_registration X) = ValueError) ∧
  (registered_as s LifeStyle.Scoped X → _in_scope s = false →
     get_instance (S fuel) X s = Raise (creation_failure X out_of_scope) s ∧
     exn_class (creation_failure X out_of_scope) = RuntimeError ∧
     exn_str (creation_failure X out_of_scope) =
       "Failed to create instance of " +:+ X +:+ ": " +:+ exn_str out_of_scope ∧
     creation_failure X out_of_scope ≠ out_of_scope).
Proof.
  split.
  - intros H. split; [by apply get_instance_unregistered|done].
  - intros Hreg Hin. split_and!; [by apply get_instance_out_of_scope|done|done|].
    by apply creation_failure_neq.
Qed.

(** *** Factories *)

(** C2 (as amended): for a registration that carries a factory, the factory
    is called with the registered parameters as they are, back-reference
    markers included: nothing is resolved and [get_instance] is not
    re-entered, whatever it would answer.  The value the factory returns is
    the instance, a failure of the factory is wrapped, and no setter
    injection takes place: a new object enters the heap as the factory made
    it.  One unit of fuel is enough for the lookup. *)
Theorem factory_strategy rec fuel X s r f :
  _registrations s !! X = Some r →
  strat r = Factory f →
  _create_instance rec X s =
    match fac_call f (params r) with
    | inl e => Raise (creation_failure X e) s
    | inr (Existing v) => Ok v s
    | inr (Fresh o) => Ok (VRef (length (heap s))) (set_heap (fun h => h ++ [o]) s)
    end ∧
  get_instance (S fuel) X s = get_instance 1 X s ∧
  get_instance 1 X s ≠ Timeout.
Proof.
  intros Hr Hf.
  assert (Hcreate : ∀ rec', _create_instance rec' X s =
    match fac_call f (params r) with
    | inl e => Raise (creation_failure X e) s
    | inr (Existing v) => Ok v s
    | inr (Fresh o) => Ok (VRef (length (heap s))) (set_heap (fun h => h ++ [o]) s)
    end).
  { intros rec'. unfold _create_instance, call_factory. rewrite Hr, Hf.
    by destruct (fac_call f (params r)) as [e|[o|v]]. }
  assert (Hfuel : get_instance 1 X s ≠ Timeout).
  { simpl. unfold get_instance_body. rewrite Hr, wrap_failure_Timeout.
    rewrite !Hcreate. repeat case_match; simpl; congruence. }
  split_and!; [apply Hcreate| |done].
  apply get_instance_mono; [lia|done].
Qed.

(** *** Registration *)

Lemma register_state X impl ls ps st s :
  strategy_of impl = Some st →
  register X impl ls ps s =
    Ok tt (set_registrations (insert X (Registration ls (default [] ps) st)) s).
Proof. intros H. unfold register. by rewrite H. Qed.

(** C3 (as amended): a second [register] of [X] is accepted without error
    and replaces the binding: the table holds the second registration
    alone, as if the first had never been made, and the caches, the scope
    flag and the heap are as before.  A later lookup of [X] builds from the
    second registration provided the cache that the second life style
    selects holds no instance of [X]; an instance cached there earlier is
    not discarded by [register]. *)
Theorem reregistration fuel X impl ls ps st s :
  strategy_of impl = Some st →
  ∃ s2,
    register X impl ls ps s = Ok tt s2 ∧
    _registrations s2 = <[X := Registration ls (default [] ps) st]> (_registrations s) ∧
    _singleton_instances s2 = _singleton_instances s ∧
    _scoped_instances s2 = _scoped_instances s ∧
    _in_scope s2 = _in_scope s ∧
    heap s2 = heap s ∧
    (∀ impl1 ls1 ps1,
       register X impl ls ps (state_of (register X impl1 ls1 ps1 s)) = Ok tt s2) ∧
    (∀ v s3,
       cache_miss s X ls →
       get_instance fuel X s2 = Ok v s3 →
       built_from (Registration ls (default [] ps) st) s2 v s3).
Proof.
  intros Hst. eexists. split; [by apply register_state|].
  split_and!; try done.
  - intros impl1 ls1 ps1. rewrite (register_state X impl ls ps st) by done.
    unfold register. destruct (strategy_of impl1); simpl; [|done].
    unfold set_registrations; simpl. by rewrite insert_insert_eq.
  - intros v s3 Hmiss. apply get_instance_built; [|done].
    simpl. by rewrite lookup_insert_eq.
Qed.

(** *** Acyclic registrations: a lookup touches no entry above its rank *)

Lemma ranked_b_sound rank s : ranked_b globals rank s = true → ranked globals rank s.
Proof.
  unfold ranked_b, ranked. intros H X r D Hr HD.
  apply Is_true_true, forallb_True in H.
  rewrite Forall_forall in H. specialize (H (X, r)). simpl in H.
  assert (Hall := H ltac:(by apply elem_of_map_to_list)).
  apply forallb_True in Hall. rewrite Forall_forall in Hall.
  by apply Nat.ltb_lt, Is_true_true, Hall.
Qed.

Lemma ranked_registrations rank s s' :
  _registrations s' = _registrations s → ranked globals rank s → ranked globals rank s'.
Proof. unfold ranked. by intros ->. Qed.

Section Ranked.

Variable rank : ident → nat.

Abbreviation above_untouched := (above_untouched globals rank).
Abbreviation own_untouched := (own_untouched globals rank).

Lemma above_untouched_trans X s1 s2 s3 :
  above_untouched X s1 s2 → above_untouched X s2 s3 → above_untouched X s1 s3.
Proof.
  intros [He1 H1] [He2 H2]. split; [by eapply extends_trans|].
  intros Hrk Z HZ. destruct (H1 Hrk Z HZ) as [<- <-]. apply H2; [|done].
  eapply ranked_registrations; [|done]. apply He1.
Qed.

Lemma get_instance_above fuel X s s' :
  final_state (get_instance fuel X s) = Some s' → above_untouched X s s'.
Proof.
  apply (get_instance_invariant above_untouched); clear.
  - intros X s. split; [apply extends_refl|done].
  - apply above_untouched_trans.
  - intros X s s' [He _]. apply He.
  - intros X s o. split; [apply extends_alloc|done].
  - intros X s o s1 o' [He H]. split; [by apply (extends_update s o)|].
    intros Hrk Z HZ. by apply H.
  - intros X D r s1 s2 Hr HD [He H]. split; [done|].
    intros Hrk Z HZ. apply H; [done|]. specialize (Hrk X r D Hr HD). lia.
  - intros X r s s1 v Hr Hls Hc [He H]. split; [by eapply extends_singleton|].
    intros Hrk Z HZ. simpl. rewrite lookup_insert_ne by (intros ->; lia). by apply H.
  - intros X r s s1 v Hr Hls Hin Hc [He H]. split; [by eapply extends_scoped|].
    intros Hrk Z HZ. simpl. rewrite lookup_insert_ne by (intros ->; lia). by apply H.
Qed.

Lemma create_instance_own fuel X s s' :
  final_state (_create_instance (get_instance fuel) X s) = Some s' →
  own_untouched X s s'.
Proof.
  destruct (_registrations s !! X) as [r|] eqn:Hr.
  2: { unfold _create_instance. rewrite Hr. intros [= <-].
       split; [apply extends_refl|done]. }
  refine (create_instance_frame (own_untouched X) _ _ _ _ _
            (get_instance fuel) (_registrations s) X r s s' eq_refl Hr _).
  - intros s0. split; [apply extends_refl|done].
  - intros s1 s2 s3 [He1 H1] [He2 H2]. split; [by eapply extends_trans|].
    intros Hrk. destruct (H1 Hrk) as [<- <-]. apply H2.
    eapply ranked_registrations; [|done]. apply He1.
  - intros s0 s0' [He _]. apply He.
  - intros s0 o. split; [apply extends_alloc|done].
  - intros s0 o s1 o' [He H]. split; [by apply (extends_update s0 o)|].
    intros Hrk. by apply H.
  - intros D HD s1 s2 Hs1 [He H]%get_instance_above. split; [done|].
    intros Hrk. apply H; [done|]. apply (Hrk X r D); [by rewrite Hs1|done].
Qed.

(** C4 (as amended): when the registrations are acyclic, a lookup of [X]
    that fails, for whatever reason, inserts no entry for [X]: the entries
    of [X] in the singleton cache and in the scoped cache are as before the
    call, and so are the registrations and the scope flag.  The caches as a
    whole need not be unchanged: an instance of a dependency that was built
    before the failure stays cached. *)
Theorem failed_build_keeps_entry fuel X s e s' :
  ranked globals rank s →
  get_instance fuel X s = Raise e s' →
  _singleton_instances s' !! X = _singleton_instances s !! X ∧
  _scoped_instances s' !! X = _scoped_instances s !! X ∧
  extends s s'.
Proof.
  intros Hrk H.
  assert (Hext : extends s s') by (apply (get_instance_extends fuel X); by rewrite H).
  enough (_singleton_instances s' !! X = _singleton_instances s !! X ∧
          _scoped_instances s' !! X = _scoped_instances s !! X) as [? ?]
    by (by split_and!).
  destruct fuel as [|n]; [done|]. simpl in H. unfold get_instance_body in H.
  destruct (_registrations s !! X) as [r|] eqn:Hr; [|by injection H as <- <-].
  apply wrap_failure_Raise in H as (e0 & H & _).
  assert (Hown : ∀ e1, _create_instance (get_instance n) X s = Raise e1 s' →
            _singleton_instances s' !! X = _singleton_instances s !! X ∧
            _scoped_instances s' !! X = _scoped_instances s !! X).
  { intros e1 E. apply (create_instance_own n X s s'); [by rewrite E|done]. }
  destruct (String.eqb (life_style r) LifeStyle.Singleton).
  { destruct (_singleton_instances s !! X); [done|].
    destruct (_create_instance (get_instance n) X s) eqn:E; [done| |done].
    injection H as -> ->. by eapply Hown. }
  destruct (String.eqb (life_style r) LifeStyle.Scoped); [|by eapply Hown].
  destruct (_in_scope s); [|by injection H as _ <-].
  destruct (_scoped_instances s !! X); [done|].
  destruct (_create_instance (get_instance n) X s) eqn:E; [done| |done].
  injection H as -> ->. by eapply Hown.
Qed.

End Ranked.

(** *** Acyclic registrations: every lookup ends *)

Section Termination.

Variable rank : ident → nat.

Lemma resolve_items_total rec regs items acc s :
  (∀ D, D ∈ referenced globals items → ∀ s1,
     _registrations s1 = regs → rec D s1 ≠ Timeout) →
  (∀ D s1 s2, final_state (rec D s1) = Some s2 →
     _registrations s2 = _registrations s1) →
  _registrations s = regs →
  resolve_items rec items acc s ≠ Timeout.
Proof.
  intros Hrec Hregs. revert acc s.
  induction items as [|[k v] items IH]; intros acc s Hs; simpl; [done|].
  unfold referenced in Hrec, IH. simpl in Hrec.
  destruct (back_reference v) as [name|]; simpl in Hrec; [|by apply IH].
  destruct (globals !! name) as [[D|e0]|]; simpl in Hrec; cbn [lookup_dependency];
    [|by destruct (is_KeyError e0)|done].
  pose proof (Hrec D (list_elem_of_here _ _) s Hs) as Hcall.
  destruct (rec D s) as [inst s1|e s1|] eqn:E; [| |done].
  - apply IH.
    + intros D' HD'. apply Hrec. by right.
    + rewrite <- Hs. apply (Hregs D). by rewrite E.
  - by destruct (is_KeyError e).
Qed.

Lemma create_instance_total rec X r s :
  _registrations s !! X = Some r →
  (∀ D, D ∈ deps_of globals r → ∀ s1,
     _registrations s1 = _registrations s → rec D s1 ≠ Timeout) →
  (∀ D s1 s2, final_state (rec D s1) = Some s2 →
     _registrations s2 = _registrations s1) →
  _create_instance rec X s ≠ Timeout.
Proof.
  intros Hr Hrec Hregs. unfold _create_instance. rewrite Hr, wrap_failure_Timeout.
  unfold deps_of in Hrec. destruct (strat r) as [f|c].
  - unfold call_factory. by destruct (fac_call f (params r)) as [e|[o|v]].
  - unfold _resolve_constructor_params.
    destruct (resolve_items rec (params r) [] s) as [cp s1|e s1|] eqn:E; simpl; [|done|].
    + unfold construct. destruct (cls_init c cp) as [e|attrs]; [done|]. simpl.
      unfold inject_logger. destruct (cls_set_logger c) as [setter|]; [|done].
      assert (Hcall : rec ILogger (alloc (Object (cls_name c) attrs) s1).2 ≠ Timeout).
      { apply Hrec; [apply elem_of_app; right; by left|]. simpl.
        apply (resolve_items_registrations rec Hregs (params r) []). by rewrite E. }
      simpl in Hcall. destruct (rec ILogger _) as [logger s2|e s2|]; [| |done].
      * destruct (setter logger attrs) as [e|attrs']; [|done]. by destruct (swallowed e).
      * by destruct (swallowed e).
    + apply (resolve_items_total rec (_registrations s) (params r) [] s) in E; [done| |done..].
      intros D HD. apply Hrec, elem_of_app. by left.
Qed.

(** With acyclic registrations a lookup returns or raises as soon as the
    fuel exceeds the rank of the identity. *)
Lemma get_instance_total fuel X s :
  ranked globals rank s → rank X < fuel → get_instance fuel X s ≠ Timeout.
Proof.
  revert X s. induction fuel as [|n IH]; intros X s Hrk Hlt; [lia|]. simpl.
  unfold get_instance_body.
  destruct (_registrations s !! X) as [r|] eqn:Hr; [|done].
  rewrite wrap_failure_Timeout.
  assert (Hcreate : _create_instance (get_instance n) X s ≠ Timeout).
  { apply (create_instance_total _ X r); [done| |].
    - intros D HD s1 Hs1. apply IH.
      + by eapply ranked_registrations.
      + specialize (Hrk X r D Hr HD). lia.
    - intros D s1 s2 H. by apply (ext_registrations s1 s2), (get_instance_extends n D). }
  repeat case_match; try done;
    by destruct (_create_instance (get_instance n) X s).
Qed.

End Termination.

(** *** Acyclic registrations: a build does not come back to its identity *)

(** Two families of nested calls that answer alike on the identities a
    build asks for give the same build. *)
Lemma resolve_items_agree rec rec' regs items :
  (∀ D, D ∈ referenced globals items → ∀ s1,
     _registrations s1 = regs → rec D s1 = rec' D s1) →
  (∀ D s1 s2, final_state (rec' D s1) = Some s2 →
     _registrations s2 = _registrations s1) →
  ∀ acc s, _registrations s = regs →
  resolve_items rec items acc s = resolve_items rec' items acc s.
Proof.
  intros Hrec Hregs. induction items as [|[k v] items IH]; intros acc s Hs; simpl; [done|].
  unfold referenced in Hrec, IH. simpl in Hrec.
  destruct (back_reference v) as [name|]; simpl in Hrec; [|by apply IH].
  destruct (globals !! name) as [[D|e0]|]; simpl in Hrec; cbn [lookup_dependency];
    [|done..].
  rewrite (Hrec D (list_elem_of_here _ _) s Hs).
  destruct (rec' D s) as [inst s1|e s1|] eqn:E; [|done..].
  apply IH.
  - intros D' HD'. apply Hrec. by right.
  - rewrite <- Hs. apply (Hregs D). by rewrite E.
Qed.

Lemma create_instance_agree rec rec' X r s :
  _registrations s !! X = Some r →
  (∀ D, D ∈ deps_of globals r → ∀ s1,
     _registrations s1 = _registrations s → rec D s1 = rec' D s1) →
  (∀ D s1 s2, final_state (rec' D s1) = Some s2 →
     _registrations s2 = _registrations s1) →
  _create_instance rec X s = _create_instance rec' X s.
Proof.
  intros Hr Hrec Hregs. unfold _create_instance. rewrite Hr. f_equal.
  unfold deps_of in Hrec. destruct (strat r) as [f|c]; [done|].
  unfold _resolve_constructor_params.
  rewrite (resolve_items_agree rec rec' (_registrations s)); [|
    by intros D HD; apply Hrec, elem_of_app; left|done..].
  destruct (resolve_items rec' (params r) [] s) as [cp s1|e s1|] eqn:E; [|done..].
  simpl. unfold construct. destruct (cls_init c cp) as [e|attrs]; [done|]. simpl.
  unfold inject_logger. destruct (cls_set_logger c) as [setter|]; [|done].
  rewrite Hrec; [done|apply elem_of_app; right; by left|]. simpl.
  apply (resolve_items_registrations rec' Hregs (params r) []). by rewrite E.
Qed.

Lemma get_instance_body_agree rec rec' X s :
  (∀ r D, _registrations s !! X = Some r → D ∈ deps_of globals r → ∀ s1,
     _registrations s1 = _registrations s → rec D s1 = rec' D s1) →
  (∀ D s1 s2, final_state (rec' D s1) = Some s2 →
     _registrations s2 = _registrations s1) →
  get_instance_body rec X s = get_instance_body rec' X s.
Proof.
  intros Hrec Hregs. unfold get_instance_body.
  destruct (_registrations s !! X) as [r|] eqn:Hr; [|done].
  by rewrite (create_instance_agree rec rec' X r s Hr (fun D => Hrec r D eq_refl) Hregs).
Qed.

Lemma get_instance_registrations fuel D s1 s2 :
  final_state (get_instance fuel D s1) = Some s2 →
  _registrations s2 = _registrations s1.
Proof. intros H. by apply (ext_registrations s1 s2), (get_instance_extends fuel D). Qed.

(** A lookup of an identity ranked below [Z] makes no lookup of [Z]. *)
Lemma get_instance_without_below rank Z fuel Y s :
  ranked globals rank s → rank Y < rank Z →
  get_instance_without globals Z fuel Y s = get_instance fuel Y s.
Proof.
  revert Y s. induction fuel as [|n IH]; intros Y s Hrk Hlt; [done|]. simpl.
  destruct (decide (Y = Z)) as [->|_]; [lia|].
  apply get_instance_body_agree; [|apply get_instance_registrations].
  intros r D Hr HD s1 Hs1. apply IH.
  - by eapply ranked_registrations.
  - specialize (Hrk Y r D Hr HD). lia.
Qed.

(** With acyclic registrations the build of [X] makes no lookup of [X]. *)
Lemma create_instance_once rank fuel X s :
  ranked globals rank s →
  _create_instance (get_instance_without globals X fuel) X s =
    _create_instance (get_instance fuel) X s.
Proof.
  intros Hrk. destruct (_registrations s !! X) as [r|] eqn:Hr.
  2: { unfold _create_instance. by rewrite Hr. }
  apply (create_instance_agree _ _ X r s Hr); [|apply get_instance_registrations].
  intros D HD s1 Hs1. apply (get_instance_without_below rank).
  - by eapply ranked_registrations.
  - by apply (Hrk X r D).
Qed.

(** *** Singletons *)

Lemma get_instance_singleton_hit fuel X s v :
  registered_as s LifeStyle.Singleton X →
  _singleton_instances s !! X = Some v →
  get_instance (S fuel) X s = Ok v s.
Proof.
  intros (r & Hr & Hls) Hc. simpl. unfold get_instance_body.
  by rewrite Hr, Hls, Hc.
Qed.

Lemma extends_singleton_stable s s' X v :
  extends s s' →
  _singleton_instances s !! X = Some v → _singleton_instances s' !! X = Some v.
Proof. intros He Hc. destruct (ext_singleton s s' He X) as [->|[? _]]; congruence. Qed.

Lemma step_singleton_stable fuel o s s' X v :
  step globals fuel o s = Some s' →
  _singleton_instances s !! X = Some v → _singleton_instances s' !! X = Some v.
Proof.
  destruct o as [Y impl ls ps|Y| |]; simpl.
  - unfold register. destruct (strategy_of impl); by intros [= <-].
  - intros He%get_instance_extends. by apply extends_singleton_stable.
  - by intros [= <-].
  - by intros [= <-].
Qed.

Lemma run_singleton_stable fuel ops s s' X v :
  run globals fuel ops s = Some s' →
  _singleton_instances s !! X = Some v → _singleton_instances s' !! X = Some v.
Proof.
  revert s. induction ops as [|o ops IH]; intros s; simpl; [by intros [= <-]|].
  destruct (step globals fuel o s) as [s1|] eqn:E; [|done].
  intros Hrun Hc. apply (IH s1 Hrun). by eapply step_singleton_stable.
Qed.

(** C5 (as amended): for an identity registered as [Singleton], the lookup
    that finds no instance in the singleton cache builds one and inserts it;
    once a lookup has returned an instance, that instance is the entry of
    the cache, the next lookup returns the identical instance and leaves the
    whole state, heap included, as it is (nothing is built), and so does
    every later lookup, whatever operations come in between, as long as the
    identity is still registered as [Singleton].  When the registrations are
    acyclic the first lookup builds the identity once: its build makes no
    nested lookup of the identity, so the same instance is built with those
    lookups taken out, and the cache has no entry for the identity until
    the insertion that ends the lookup. *)
Theorem singleton_identity fuel X s v s1 :
  registered_as s LifeStyle.Singleton X →
  get_instance fuel X s = Ok v s1 →
  _singleton_instances s1 !! X = Some v ∧
  (_singleton_instances s !! X = None →
     ∃ s0, _create_instance (get_instance (pred fuel)) X s = Ok v s0 ∧
           s1 = set_singleton_instances (insert X v) s0 ∧
           (∀ rank, ranked globals rank s →
              _create_instance (get_instance_without globals X (pred fuel)) X s
                = Ok v s0 ∧
              _singleton_instances s0 !! X = None)) ∧
  (∀ fuel', get_instance (S fuel') X s1 = Ok v s1) ∧
  (∀ fuel' ops s2,
     run globals fuel' ops s1 = Some s2 →
     registered_as s2 LifeStyle.Singleton X →
     ∀ fuel'', get_instance (S fuel'') X s2 = Ok v s2).
Proof.
  intros Hreg Hget.
  assert (Hext : extends s s1) by (apply (get_instance_extends fuel X); by rewrite Hget).
  assert (Hreg1 : registered_as s1 LifeStyle.Singleton X).
  { destruct Hreg as (r & Hr & Hls). exists r. by rewrite (ext_registrations s s1). }
  assert (Hbuild : _singleton_instances s !! X = None →
     ∃ s0, _create_instance (get_instance (pred fuel)) X s = Ok v s0 ∧
           s1 = set_singleton_instances (insert X v) s0 ∧
           (∀ rank, ranked globals rank s →
              _create_instance (get_instance_without globals X (pred fuel)) X s
                = Ok v s0 ∧
              _singleton_instances s0 !! X = None)).
  { intros Hc. destruct fuel as [|n]; [done|]. simpl in *.
    destruct Hreg as (r & Hr & Hls). unfold get_instance_body in Hget.
    rewrite Hr, Hls, Hc in Hget. simpl in Hget. apply wrap_failure_Ok in Hget.
    destruct (_create_instance (get_instance n) X s) as [v0 s0|e s0|] eqn:E; [|done..].
    injection Hget as -> <-. exists s0. split_and!; [done..|].
    intros rank Hrk. split.
    - by rewrite (create_instance_once rank).
    - destruct (create_instance_own rank n X s s0) as [_ Hown]; [by rewrite E|].
      destruct (Hown Hrk) as [-> _]. done. }
  assert (Hentry : _singleton_instances s1 !! X = Some v).
  { destruct (_singleton_instances s !! X) as [v0|] eqn:Hc.
    - destruct fuel as [|n]; [done|].
      rewrite (get_instance_singleton_hit n X s v0) in Hget by done.
      by injection Hget as <- <-.
    - destruct (Hbuild eq_refl) as (s0 & _ & -> & _). simpl. apply lookup_insert_eq. }
  split_and!; [done|done| |].
  - intros fuel'. by apply get_instance_singleton_hit.
  - intros fuel' ops s2 Hrun Hreg2 fuel''. apply get_instance_singleton_hit; [done|].
    by eapply run_singleton_stable.
Qed.

(** *** The resolver *)

Lemma resolve_items_app rec pre post acc s :
  resolve_items rec (pre ++ post) acc s =
    bind (resolve_items rec pre acc s) (resolve_items rec post).
Proof.
  revert acc s. induction pre as [|[k v] pre IH]; intros acc s; simpl; [done|].
  destruct (back_reference v) as [name|]; [|by apply IH].
  destruct (globals !! name) as [[D|e0]|]; cbn [lookup_dependency];
    [|by destruct (is_KeyError e0)|done].
  destruct (rec D s) as [inst s1|e s1|]; [by apply IH| |done].
  by destruct (is_KeyError e).
Qed.

(** A key that the remaining entries do not set keeps its value. *)
Lemma resolve_items_keeps rec k post acc s res s' :
  resolve_items rec post acc s = Ok res s' →
  k ∉ dict_keys post → dict_get k res = dict_get k acc.
Proof.
  revert acc s. induction post as [|[k' v'] post IH]; intros acc s; simpl.
  { by intros [= <- <-]. }
  intros H Hk. apply not_elem_of_cons in Hk as [Hne Hk].
  destruct (back_reference v') as [name|].
  - destruct (globals !! name) as [[D|e0]|]; cbn [lookup_dependency] in H;
      [|by destruct (is_KeyError e0)|done].
    destruct (rec D s) as [inst s1|e s1|]; [| |done].
    + rewrite (IH _ _ H Hk). by apply dict_get_set_ne.
    + by destruct (is_KeyError e).
  - rewrite (IH _ _ H Hk). by apply dict_get_set_ne.
Qed.

(** C6 (as amended): the resolver goes through the entries in order.  For
    the entry [(k, v)] that follows entries already resolved to [acc]: a
    value that is
    not a back-reference marker is stored under [k] unchanged; a marker
    ['@name'] whose name [globals()] does not bind makes the resolver raise
    the [ValueError] "Dependency name not found"; a marker whose name is
    bound to the identity [T] is replaced by the instance that the nested
    [get_instance] of [T] returns, and a failure of that call is the failure
    of the resolver; a marker whose name is bound to an object that is no
    identity makes the resolver fail with the error [get_instance] raises on
    that object ("Dependency name not found" again only if that error is a
    [KeyError]); and the resolver can only succeed if the name is bound to
    an identity whose lookup succeeded. *)
Theorem resolver_entries fuel pre k v post s acc s1 :
  _resolve_constructor_params (get_instance fuel) pre s = Ok acc s1 →
  let whole :=
    _resolve_constructor_params (get_instance fuel) (pre ++ (k, v) :: post) s in
  (back_reference v = None →
     whole = resolve_items (get_instance fuel) post (dict_set k v acc) s1 ∧
     (∀ res s', whole = Ok res s' → k ∉ dict_keys post → dict_get k res = Some v)) ∧
  (∀ name, v = VStr (String "@"%char name) →
     (globals !! name = None →
        whole = Raise (dependency_not_found name) s1 ∧
        exn_class (dependency_not_found name) = ValueError) ∧
     (∀ T inst s2,
        globals !! name = Some (Identity T) →
        get_instance fuel T s1 = Ok inst s2 →
        whole = resolve_items (get_instance fuel) post (dict_set k inst acc) s2 ∧
        (∀ res s', whole = Ok res s' → k ∉ dict_keys post →
           dict_get k res = Some inst)) ∧
     (∀ T e s2,
        globals !! name = Some (Identity T) →
        get_instance fuel T s1 = Raise e s2 → whole = Raise e s2) ∧
     (∀ e,
        globals !! name = Some (NotIdentity e) →
        whole = Raise (if is_KeyError e then dependency_not_found name else e) s1) ∧
     (∀ res s', whole = Ok res s' →
        ∃ T inst s2, globals !! name = Some (Identity T) ∧
                     get_instance fuel T s1 = Ok inst s2)).
Proof.
  unfold _resolve_constructor_params. cbv zeta. intros Hpre.
  rewrite resolve_items_app, Hpre. simpl. split.
  - intros ->. split; [done|]. intros res s' H Hk.
    rewrite (resolve_items_keeps _ k post _ _ _ _ H Hk). apply dict_get_set_eq.
  - intros name ->. simpl. split_and!.
    + by intros ->.
    + intros T inst s2 -> Hget. simpl. rewrite Hget. split; [done|]. intros res s' H Hk.
      rewrite (resolve_items_keeps _ k post _ _ _ _ H Hk). apply dict_get_set_eq.
    + intros T e s2 -> Hraise. simpl. rewrite Hraise.
      by destruct (get_instance_raises _ _ _ _ _ Hraise) as [_ ->].
    + intros e ->. simpl. by destruct (is_KeyError e).
    + intros res s'.
      destruct (globals !! name) as [[T|e0]|]; simpl; [|by destruct (is_KeyError e0)|done].
      destruct (get_instance fuel T s1) as [inst s2|e s2|] eqn:E; [|by destruct (is_KeyError e)|done].
      intros _. by exists T, inst, s2.
Qed.

(** *** The setter injection *)

(** C7: for a class strategy whose class has the [set_logger] method, once
    the parameters are resolved and the constructor has returned, a lookup
    of [ILogger] that fails (no registration, or a failure while the logger
    is built) is swallowed: [_create_instance] returns the new instance,
    whose attributes are those the constructor set, and so does
    [get_instance] whenever it has to build, inserting the instance as the
    life style says.  No error reaches the caller. *)
Theorem logger_injection_skipped fuel X s r c setter cp s1 attrs e s3 :
  _registrations s !! X = Some r →
  strat r = Implementation c →
  cls_set_logger c = Some setter →
  _resolve_constructor_params (get_instance fuel) (params r) s = Ok cp s1 →
  cls_init c cp = inr attrs →
  get_instance fuel ILogger (alloc (Object (cls_name c) attrs) s1).2 = Raise e s3 →
  _create_instance (get_instance fuel) X s = Ok (VRef (length (heap s1))) s3 ∧
  heap s3 !! length (heap s1) = Some (Object (cls_name c) attrs) ∧
  (cache_miss s X (life_style r) →
     get_instance (S fuel) X s =
       Ok (VRef (length (heap s1)))
          (cache_instance (life_style r) X (VRef (length (heap s1))) s3)).
Proof.
  intros Hr Hst Hset Hres Hinit Hlog.
  assert (Hcreate :
    _create_instance (get_instance fuel) X s = Ok (VRef (length (heap s1))) s3).
  { unfold _create_instance. rewrite Hr, Hst, Hres. simpl.
    unfold construct. rewrite Hinit. simpl. unfold inject_logger.
    rewrite Hset. simpl in Hlog. rewrite Hlog.
    by destruct (get_instance_raises _ _ _ _ _ Hlog) as [-> _]. }
  split_and!; [done| |].
  - eapply prefix_lookup_Some; [apply lookup_alloc|].
    apply ext_heap, (get_instance_extends fuel ILogger). by rewrite Hlog.
  - intros Hmiss. simpl.
    by rewrite (get_instance_body_miss _ X s r Hr Hmiss), Hcreate.
Qed.

(** *** Scopes *)

Lemma step_in_scope fuel o s s' :
  step globals fuel o s = Some s' →
  _in_scope s' = scope_flag [o] (_in_scope s).
Proof.
  destruct o as [Y impl ls ps|Y| |]; simpl.
  - unfold register. destruct (strategy_of impl); by intros [= <-].
  - intros He%get_instance_extends. apply He.
  - by intros [= <-].
  - by intros [= <-].
Qed.

Lemma run_in_scope fuel ops s s' :
  run globals fuel ops s = Some s' →
  _in_scope s' = scope_flag ops (_in_scope s).
Proof.
  revert s. induction ops as [|o ops IH]; intros s; simpl; [by intros [= <-]|].
  destruct (step globals fuel o s) as [s1|] eqn:E; [|done].
  intros Hrun. rewrite (IH s1 Hrun), (step_in_scope fuel o s s1 E).
  by destruct o.
Qed.

Lemma alternating_count ops b :
  alternating ops b = true →
  active_scopes ops (open_count b) = open_count (scope_flag ops b).
Proof.
  revert b. induction ops as [|o ops IH]; intros b; simpl; [done|].
  destruct o; try apply IH.
  - intros [Hb H]%andb_true_iff. destruct b; [done|]. apply (IH true H).
  - intros [Hb H]%andb_true_iff. destruct b; [|done]. apply (IH false H).
Qed.


Lemma run_snoc fuel ops o s :
  run globals fuel (ops ++ [o]) s =
    match run globals fuel ops s with
    | Some s1 => step globals fuel o s1
    | None => None
    end.
Proof.
  revert s. induction ops as [|o' ops IH]; intros s; simpl.
  - by destruct (step globals fuel o s).
  - destruct (step globals fuel o' s) as [s1|]; [apply IH|done].
Qed.

(** C9 (as amended): the injector records scope activity in one boolean.
    Over any sequence of operations the flag is the one the last scope
    operation set: an entry makes it true and an exit makes it false, from
    either state, and [register] and [get_instance] leave it alone.  An
    entry and an exit each leave the scoped cache empty and touch nothing
    else, so the scoped cache is empty after any sequence that ends with
    one of them.  Entering a scope while one is open is not rejected.  For
    the sequences in which scopes are not nested, at most one scope is open
    at any end and the flag is true exactly when one is. *)
Theorem scope_flag_tracks fuel ops s s' :
  run globals fuel ops s = Some s' →
  _in_scope s' = scope_flag ops (_in_scope s) ∧
  (∀ s0, Scope.__enter__ s0 =
           State (_registrations s0) (_singleton_instances s0) ∅ true (heap s0) ∧
         Scope.__exit__ s0 =
           State (_registrations s0) (_singleton_instances s0) ∅ false (heap s0)) ∧
  (alternating ops (_in_scope s) = true →
     active_scopes ops (open_count (_in_scope s)) = open_count (_in_scope s') ∧
     active_scopes ops (open_count (_in_scope s)) ≤ 1) ∧
  (∀ ops0 o, ops = ops0 ++ [o] → o = OpEnter ∨ o = OpExit →
     _scoped_instances s' = ∅) ∧
  (∀ o s0 s1, step globals fuel o s0 = Some s1 →
     match o with
     | OpEnter => _in_scope s1 = true ∧ _scoped_instances s1 = ∅
     | OpExit => _in_scope s1 = false ∧ _scoped_instances s1 = ∅
     | _ => _in_scope s1 = _in_scope s0
     end).
Proof.
  intros Hrun. pose proof (run_in_scope fuel ops s s' Hrun) as Hflag.
  split_and!; [done|done| | |].
  - intros Halt. rewrite (alternating_count ops _ Halt), Hflag.
    split; [done|]. by destruct (scope_flag ops (_in_scope s)); simpl; lia.
  - intros ops0 o -> Ho. rewrite run_snoc in Hrun.
    destruct (run globals fuel ops0 s) as [s1|]; [|done].
    by destruct Ho as [-> | ->]; injection Hrun as <-.
  - intros o s0 s1 Hstep. destruct o as [Y impl ls ps|Y| |].
    + by apply (step_in_scope fuel (OpRegister Y impl ls ps)).
    + by apply (step_in_scope fuel (OpGetInstance Y)).
    + by injection Hstep as <-.
    + by injection Hstep as <-.
Qed.

(** *** Life styles without a cache *)

Section Poke.

Variable X : ident.
Variable a b : option value.

Abbreviation poked := (poke X a b).

Lemma uncached_registrations s s' :
  _registrations s' = _registrations s → uncached s X → uncached s' X.
Proof. unfold uncached, registered_as. by intros ->. Qed.

Lemma uncached_life_style s r :
  uncached s X → _registrations s !! X = Some r →
  String.eqb (life_style r) LifeStyle.Singleton = false ∧
  String.eqb (life_style r) LifeStyle.Scoped = false.
Proof.
  intros [H1 H2] Hr. split; apply String.eqb_neq; intros Hls.
  - apply H1. by exists r.
  - apply H2. by exists r.
Qed.

Section Open.

Variable rec : ident → state → outcome value.
Hypothesis rec_poke : ∀ Y s,
  uncached s X → rec Y (poked s) = map_outcome poked (rec Y s).
Hypothesis rec_registrations : ∀ Y s s',
  final_state (rec Y s) = Some s' → _registrations s' = _registrations s.

Lemma resolve_items_poke items acc s :
  uncached s X →
  resolve_items rec items acc (poked s) = map_outcome poked (resolve_items rec items acc s).
Proof.
  revert acc s. induction items as [|[k v] items IH]; intros acc s Hun; simpl; [done|].
  destruct (back_reference v) as [name|]; [|by apply IH].
  destruct (globals !! name) as [[D|e0]|]; cbn [lookup_dependency];
    [|by destruct (is_KeyError e0)|done].
  rewrite rec_poke by done.
  destruct (rec D s) as [inst s1|e s1|] eqn:E; simpl; [| |done].
  - apply IH. eapply uncached_registrations; [|done].
    apply (rec_registrations D). by rewrite E.
  - by destruct (is_KeyError e).
Qed.

Lemma construct_poke c cp s :
  uncached s X →
  construct rec c cp (poked s) = map_outcome poked (construct rec c cp s).
Proof.
  intros Hun. unfold construct. destruct (cls_init c cp) as [e|attrs]; [done|].
  simpl. unfold inject_logger. destruct (cls_set_logger c) as [setter|]; [|done].
  change (set_heap ?f (poked s)) with (poked (set_heap f s)).
  rewrite rec_poke by done.
  destruct (rec ILogger _) as [logger s1|e s1|]; simpl; [| |done].
  - destruct (setter logger attrs) as [e|attrs']; [|done]. by destruct (swallowed e).
  - by destruct (swallowed e).
Qed.

Lemma create_instance_poke Y s :
  uncached s X →
  _create_instance rec Y (poked s) = map_outcome poked (_create_instance rec Y s).
Proof.
  intros Hun. unfold _create_instance. simpl.
  destruct (_registrations s !! Y) as [r|]; [|done].
  destruct (strat r) as [f|c].
  - unfold call_factory. by destruct (fac_call f (params r)) as [e|[o|v]].
  - unfold _resolve_constructor_params. rewrite resolve_items_poke by done.
    destruct (resolve_items rec (params r) [] s) as [cp s1|e s1|] eqn:E; simpl; [|done..].
    rewrite construct_poke.
    + by destruct (construct rec c cp s1).
    + eapply uncached_registrations; [|done].
      apply (resolve_items_registrations rec rec_registrations (params r) []).
      by rewrite E.
Qed.

Lemma get_instance_body_poke Y s :
  uncached s X →
  get_instance_body rec Y (poked s) = map_outcome poked (get_instance_body rec Y s).
Proof.
  intros Hun. unfold get_instance_body. simpl.
  destruct (_registrations s !! Y) as [r|] eqn:Hr; [|done].
  rewrite create_instance_poke by done.
  destruct (decide (Y = X)) as [->|Hne].
  { destruct (uncached_life_style s r Hun Hr) as [-> ->].
    by destruct (_create_instance rec X s). }
  rewrite !lookup_partial_alter_ne by done.
  destruct (String.eqb (life_style r) LifeStyle.Singleton).
  { destruct (_singleton_instances s !! Y); [done|].
    destruct (_create_instance rec Y s) as [v s1|e s1|]; simpl; [|done..].
    unfold poke, set_singleton_instances, set_scoped_instances; simpl.
    by rewrite partial_alter_insert_ne. }
  destruct (String.eqb (life_style r) LifeStyle.Scoped).
  { destruct (_in_scope s); [|done].
    destruct (_scoped_instances s !! Y); [done|].
    destruct (_create_instance rec Y s) as [v s1|e s1|]; simpl; [|done..].
    unfold poke, set_singleton_instances, set_scoped_instances; simpl.
    by rewrite partial_alter_insert_ne. }
  by destruct (_create_instance rec Y s).
Qed.

End Open.

Lemma get_instance_poke fuel Y s :
  uncached s X →
  get_instance fuel Y (poked s) = map_outcome poked (get_instance fuel Y s).
Proof.
  revert Y s. induction fuel as [|n IH]; intros Y s Hun; [done|]. simpl.
  apply get_instance_body_poke; [exact IH| |done].
  intros Z s1 s2 H. by apply (ext_registrations s1 s2), (get_instance_extends n Z).
Qed.

End Poke.

(** C10 (as amended): [register] stores any life style without looking at
    it.  For an identity whose registered life style is neither
    ["Singleton"] nor ["Scoped"], whatever string it is, every lookup runs
    [_create_instance] and returns what it builds, for a class an object
    that did not exist before; the entries of the identity itself in the two
    caches are not written, and they are not read: the lookup answers the
    same whatever they hold.  The caches are still used by the nested
    lookups of its dependencies, each under its own life style. *)
Theorem other_life_styles fuel X r s :
  _registrations s !! X = Some r →
  life_style r ≠ LifeStyle.Singleton →
  life_style r ≠ LifeStyle.Scoped →
  (∀ impl ps st s0,
     strategy_of impl = Some st →
     register X impl (life_style r) ps s0 =
       Ok tt (set_registrations
                (insert X (Registration (life_style r) (default [] ps) st)) s0)) ∧
  get_instance (S fuel) X s = wrap_failure X (_create_instance (get_instance fuel) X s) ∧
  (∀ v s', get_instance fuel X s = Ok v s' → built_from r s v s') ∧
  (∀ s', final_state (get_instance fuel X s) = Some s' →
     _singleton_instances s' !! X = _singleton_instances s !! X ∧
     _scoped_instances s' !! X = _scoped_instances s !! X) ∧
  (∀ a b, get_instance fuel X (poke X a b s) =
          map_outcome (poke X a b) (get_instance fuel X s)).
Proof.
  intros Hr Hsingle Hscoped.
  assert (Hun : uncached s X).
  { split; intros (r' & Hr' & Hls); congruence. }
  assert (Hmiss : cache_miss s X (life_style r)) by (by split).
  split_and!.
  - intros impl ps st s0. apply register_state.
  - simpl. rewrite (get_instance_body_miss _ X s r Hr Hmiss).
    unfold cache_instance.
    destruct (uncached_life_style X s r Hun Hr) as [-> ->].
    by destruct (_create_instance (get_instance fuel) X s).
  - intros v s'. by apply get_instance_built.
  - intros s' He%get_instance_extends. destruct Hun as [Hun1 Hun2]. split.
    + by destruct (ext_singleton s s' He X) as [?|[_ ?]].
    + by destruct (ext_scoped s s' He X) as [?|(_ & ? & _)].
  - intros a b. by apply get_instance_poke.
Qed.

End Properties.

(** ** The claims at concrete injectors *)

(** C1 (as stated) fails: after [configure_prod], [IDatabase] is [Scoped];
    outside a scope its lookup raises the wrapped error, not the
    out-of-scope error itself. *)
Lemma lookup_failures_unwrapped_fails :
  ¬ lookup_failures_unwrapped module_globals.
Proof.
  intros H. destruct (H 0 IDatabase prod) as [_ H2].
  assert (Hreg : registered_as prod LifeStyle.Scoped IDatabase).
  { eexists. split; reflexivity. }
  specialize (H2 Hreg eq_refl).
  rewrite get_instance_out_of_scope in H2 by done.
  injection H2 as H2. discriminate H2.
Qed.

(** After [configure_prod]: an identity nobody registered, and the
    [Scoped] [IDatabase] outside a scope. *)
Lemma lookup_failures_witness :
  get_instance module_globals 1 "ICache" prod = Raise (no_registration "ICache") prod ∧
  get_instance module_globals 1 IDatabase prod
    = Raise (creation_failure IDatabase out_of_scope) prod.
Proof.
  split.
  - apply (lookup_failures module_globals 0 "ICache" prod). reflexivity.
  - apply (lookup_failures module_globals 0 IDatabase prod).
    + eexists. split; reflexivity.
    + reflexivity.
Defined.

(** C2 (as stated) fails: [echo], registered with the parameter
    [logger = '@ILogger'], would return the logger instance if its
    parameters were resolved; it returns the marker string. *)
Lemma factory_params_resolved_fails :
  ¬ factory_params_resolved module_globals.
Proof.
  intros H.
  specialize (H 1 IDatabase echo_state
                (Registration LifeStyle.PerRequest [("logger", VStr "@ILogger")] (Factory echo))
                echo).
  specialize (H [("logger", VRef 0)]
                (set_singleton_instances (insert ILogger (VRef 0))
                   (set_heap (fun h => h ++ [Object "ConsoleLogger" []]) echo_state))).
  specialize (H eq_refl eq_refl eq_refl).
  vm_compute in H. discriminate H.
Qed.

(** [echo] receives the marker string and returns it. *)
Lemma factory_strategy_witness :
  _create_instance module_globals (get_instance module_globals 0) IDatabase echo_state
    = Ok (VStr "@ILogger") echo_state ∧
  get_instance module_globals 3 IDatabase echo_state
    = get_instance module_globals 1 IDatabase echo_state ∧
  get_instance module_globals 1 IDatabase echo_state ≠ Timeout.
Proof.
  apply (factory_strategy module_globals (get_instance module_globals 0) 2
           IDatabase echo_state
           (Registration LifeStyle.PerRequest [("logger", VStr "@ILogger")] (Factory echo))
           echo); reflexivity.
Defined.

(** C3 (as stated) fails: [ILogger] is registered as a [Singleton]
    [ConsoleLogger] and looked up, then registered again as a [Singleton]
    [FileLogger]; the next lookup returns the cached [ConsoleLogger]. *)
Lemma reregistration_reflected_fails :
  ¬ reregistration_reflected module_globals.
Proof.
  intros H.
  specialize (H 1
    [OpRegister ILogger (ImplClass ConsoleLogger) LifeStyle.Singleton None;
     OpGetInstance ILogger]).
  specialize (H _ ILogger (ImplClass FileLogger) LifeStyle.Singleton None
                _ _ (VRef 0) _ eq_refl eq_refl eq_refl eq_refl).
  destruct H as (l & o & [= <-] & Hl & _). simpl in Hl. lia.
Qed.

(** Inside a scope, [ILogger] registered again as a [Scoped] [FileLogger]:
    the scoped cache has no entry and the lookup builds a [FileLogger]. *)
Lemma reregistration_witness :
  let s := Scope.__enter__ dev in
  let s2 := state_of (register ILogger (ImplClass FileLogger) LifeStyle.Scoped None s) in
  register ILogger (ImplClass FileLogger) LifeStyle.Scoped None s = Ok tt s2 ∧
  built_from (Registration LifeStyle.Scoped [] (Implementation FileLogger)) s2 (VRef 0)
             (state_of (get_instance module_globals 1 ILogger s2)).
Proof.
  intros s s2.
  destruct (reregistration module_globals 1 ILogger (ImplClass FileLogger)
              LifeStyle.Scoped None (Implementation FileLogger) s eq_refl)
    as (s2' & Hreg & _ & _ & _ & _ & _ & _ & Hget).
  rewrite (register_state ILogger (ImplClass FileLogger) LifeStyle.Scoped None
             (Implementation FileLogger) s eq_refl) in Hreg.
  injection Hreg as <-. split; [reflexivity|].
  apply Hget; [|reflexivity].
  split; [discriminate|]. intros _ _. split; reflexivity.
Defined.

(** C4 (as stated) fails: the lookup of [IDatabase] resolves its logger,
    which is built and cached, and then fails on the back-reference
    ['@ICache']; the singleton cache has gained the logger. *)
Lemma failed_build_leaves_caches_fails :
  ¬ failed_build_leaves_caches module_globals.
Proof.
  intros H.
  destruct (H 2 IDatabase broken_state
              (creation_failure IDatabase
                 (creation_failure IDatabase (dependency_not_found "ICache")))
              (set_singleton_instances (insert ILogger (VRef 0))
                 (set_heap (fun h => h ++ [Object "ConsoleLogger" []]) broken_state)))
    as [Hs _].
  - left. eexists. split; reflexivity.
  - reflexivity.
  - apply (f_equal (fun m => m !! ILogger)) in Hs. discriminate Hs.
Qed.

(** With the logger ranked first the registrations are acyclic; the failed
    lookup of [IDatabase] leaves no entry for [IDatabase]. *)
Lemma failed_build_keeps_entry_witness :
  let s' := set_singleton_instances (insert ILogger (VRef 0))
              (set_heap (fun h => h ++ [Object "ConsoleLogger" []]) broken_state) in
  _singleton_instances s' !! IDatabase = _singleton_instances broken_state !! IDatabase ∧
  _scoped_instances s' !! IDatabase = _scoped_instances broken_state !! IDatabase ∧
  extends broken_state s'.
Proof.
  apply (failed_build_keeps_entry module_globals logger_first 2 IDatabase broken_state
           (creation_failure IDatabase
              (creation_failure IDatabase (dependency_not_found "ICache")))).
  - apply ranked_b_sound. reflexivity.
  - reflexivity.
Defined.

(** Without acyclicity a failed lookup can leave an entry for its identity:
    in the cyclic configuration the outer lookup of [IReport] fails, while
    the nested lookup of [IReport], reached through the logger of its
    source, has succeeded and cached its instance. *)
Example cyclic_failed_build_inserts :
  let out := get_instance cyclic_globals 8 "IReport" cyclic_state in
  (∃ e, out = Raise e (state_of out)) ∧
  _singleton_instances cyclic_state !! "IReport" = None ∧
  _singleton_instances (state_of out) !! "IReport" = Some (VRef 5).
Proof.
  split_and!; [|reflexivity..].
  eexists. vm_compute. reflexivity.
Qed.

(** C5 (as stated) fails: in the cycle with the open report, one lookup of
    the [Singleton] [IReport] succeeds, and its build comes back to
    [IReport] through the logger of its source: with the nested lookups of
    [IReport] taken out there is no outcome. *)
Lemma singleton_built_once_fails :
  ¬ singleton_built_once cyclic_globals.
Proof.
  intros H.
  assert (Hreg : registered_as reentrant_state LifeStyle.Singleton "IReport").
  { eexists. split; reflexivity. }
  destruct (H 7 "IReport" reentrant_state (VRef 7)
              (state_of (get_instance cyclic_globals 8 "IReport" reentrant_state))
              Hreg eq_refl) as [s0 Hs0].
  - vm_compute. reflexivity.
  - vm_compute in Hs0. discriminate Hs0.
Qed.

(** That lookup builds two reports: the nested lookup builds and caches the
    one at location 5, which the logger keeps; the outer build makes the
    one at location 7, which replaces it in the cache and is returned. *)
Example cyclic_lookup_builds_twice :
  let out := get_instance cyclic_globals 8 "IReport" reentrant_state in
  let s1 := state_of out in
  out = Ok (VRef 7) s1 ∧
  _singleton_instances s1 !! "IReport" = Some (VRef 7) ∧
  heap reentrant_state = [] ∧
  heap s1 !! 5 = Some (Object "Report" [("source", VRef 3)]) ∧
  heap s1 !! 6 = Some (Object "ChainLogger" [("probe", VRef 2); ("report", VRef 5)]) ∧
  heap s1 !! 7 = Some (Object "Report" [("source", VRef 0)]).
Proof. vm_compute. by split_and!. Qed.

(** After [configure_dev], whose registrations are acyclic: the first
    lookup of the logger builds it once, without a nested lookup of the
    logger; the second returns the same reference and changes nothing. *)
Lemma singleton_identity_witness :
  let s0 := set_heap (fun h => h ++ [Object "ConsoleLogger" []]) dev in
  let s1 := set_singleton_instances (insert ILogger (VRef 0)) s0 in
  get_instance module_globals 1 ILogger dev = Ok (VRef 0) s1 ∧
  get_instance module_globals 1 ILogger s1 = Ok (VRef 0) s1 ∧
  _create_instance module_globals (get_instance_without module_globals ILogger 0)
    ILogger dev = Ok (VRef 0) s0.
Proof.
  intros s0 s1. split; [reflexivity|].
  assert (Hreg : registered_as dev LifeStyle.Singleton ILogger).
  { eexists. split; reflexivity. }
  destruct (singleton_identity module_globals 1 ILogger dev (VRef 0) s1 Hreg eq_refl)
    as (_ & Hbuild & Hagain & _).
  split; [exact (Hagain 0)|].
  destruct (Hbuild eq_refl) as (s0' & Hcreate & _ & Hranked).
  injection Hcreate as <-.
  destruct (Hranked logger_first) as [Honce _]; [|exact Honce].
  apply ranked_b_sound. reflexivity.
Defined.

(** C6 (as stated) fails: [__name__] is a name of the module, bound to a
    string and so to no service identity; for the marker ['@__name__'] the
    resolver hands the string to [get_instance] and fails with the
    [AttributeError] raised there, not with "Dependency __name__ not
    found". *)
Lemma unresolvable_raises_not_found_fails :
  ¬ unresolvable_raises_not_found module_globals.
Proof.
  intros H.
  specialize (H 1 [] "logger" "__name__" [] Injector [] Injector eq_refl).
  assert (Hno : ∀ T, module_globals !! "__name__" ≠ Some (Identity T)) by done.
  specialize (H Hno). vm_compute in H. discriminate H.
Qed.

(** A service whose parameter is ['@__name__']: the lookup fails with the
    [AttributeError] wrapped twice. *)
Example module_name_as_dependency :
  get_instance module_globals 2 IDatabase
    (state_of (register IDatabase (ImplClass SqlDatabase) LifeStyle.PerRequest
                 (Some [("connection_string", VStr "@__name__")]) Injector))
  = Raise
      (Exn RuntimeError
         "Failed to create instance of IDatabase: Failed to create instance of IDatabase: 'str' object has no attribute '__name__'")
      (state_of (register IDatabase (ImplClass SqlDatabase) LifeStyle.PerRequest
                   (Some [("connection_string", VStr "@__name__")]) Injector)).
Proof. reflexivity. Qed.

(** The parameters of [IDatabase] in [configure_prod]: the connection
    string passes through, the marker becomes the logger instance. *)
Lemma resolver_entries_witness :
  _resolve_constructor_params module_globals (get_instance module_globals 1)
    [("connection_string", VStr "server=prod;database=app");
     ("logger", VStr "@ILogger")] prod
  = Ok [("connection_string", VStr "server=prod;database=app"); ("logger", VRef 0)]
       (set_singleton_instances (insert ILogger (VRef 0))
          (set_heap (fun h => h ++ [Object "FileLogger" [("filename", VStr "custom.log")]])
             prod)).
Proof.
  pose proof (resolver_entries module_globals 1
                [("connection_string", VStr "server=prod;database=app")]
                "logger" (VStr "@ILogger") [] prod
                [("connection_string", VStr "server=prod;database=app")] prod eq_refl)
    as H.
  cbv zeta in H. destruct H as [_ H].
  destruct (H "ILogger" eq_refl) as (_ & H2 & _ & _).
  exact (proj1 (H2 ILogger (VRef 0) _ eq_refl eq_refl)).
Defined.

(** A [SqlDatabase] with no logger registered: the lookup returns the
    instance, its [_logger] still [None]. *)
Lemma logger_injection_skipped_witness :
  get_instance module_globals 2 IDatabase no_logger_state =
    Ok (VRef 0)
       (set_heap
          (fun h => h ++ [Object "SqlDatabase"
                            [("connection_string", VStr "server=dev");
                             ("_logger", VNone)]])
          no_logger_state).
Proof.
  apply (logger_injection_skipped module_globals 1 IDatabase no_logger_state
           (Registration LifeStyle.PerRequest [("connection_string", VStr "server=dev")]
              (Implementation SqlDatabase))
           SqlDatabase store_logger
           [("connection_string", VStr "server=dev")] no_logger_state
           [("connection_string", VStr "server=dev"); ("_logger", VNone)]
           (no_registration ILogger)
           (set_heap
              (fun h => h ++ [Object "SqlDatabase"
                                [("connection_string", VStr "server=dev");
                                 ("_logger", VNone)]])
              no_logger_state)
           eq_refl eq_refl eq_refl eq_refl eq_refl eq_refl).
  split; [discriminate|]. intros _ H. discriminate H.
Defined.


(** C9 (as stated) fails: two entries in a row are both accepted, and two
    scopes are open. *)
Lemma never_two_scopes_fails :
  ¬ never_two_scopes module_globals.
Proof.
  intros H. specialize (H 0 [OpEnter; OpEnter] _ eq_refl). simpl in H. lia.
Qed.

(** The exit of a nested scope ends the outer one too: after the inner
    block of [with injector.scope(): (with injector.scope(): ...); ...] the
    lookup of the [Scoped] [IEmailService] in the outer block is refused. *)
Example nested_scope_deactivates_outer :
  with_scope
    (fun s => bind (with_scope (get_instance module_globals 1 IEmailService) s)
                (fun _ s' => get_instance module_globals 1 IEmailService s'))
    dev
  = Raise (creation_failure IEmailService out_of_scope)
          (set_heap (fun h => h ++ [Object "MockEmailService" []]) dev).
Proof. reflexivity. Qed.

(** Enter, look up, exit, enter again: one scope is open, the flag is
    true and the scoped cache is empty. *)
Lemma scope_flag_tracks_witness :
  let ops := [OpEnter; OpGetInstance IEmailService; OpExit; OpEnter] in
  let s' := default Injector (run module_globals 1 ops dev) in
  _in_scope s' = true ∧ active_scopes ops 0 = 1 ∧ _scoped_instances s' = ∅.
Proof.
  intros ops s'.
  destruct (scope_flag_tracks module_globals 1 ops dev s' eq_refl)
    as (H1 & _ & H3 & H4 & _).
  split_and!; [exact H1| |].
  - destruct (H3 eq_refl) as [H5 _]. rewrite H1 in H5. exact H5.
  - apply (H4 [OpEnter; OpGetInstance IEmailService; OpExit] OpEnter eq_refl).
    by left.
Defined.

(** C10 (as stated) fails: the lookup of the [PerRequest] [IDatabase] looks
    up the logger for the setter injection, and the logger, a [Singleton],
    is built and written into the singleton cache. *)
Lemma uncached_lookup_leaves_caches_fails :
  ¬ uncached_lookup_leaves_caches module_globals.
Proof.
  intros H.
  destruct (H 2 IDatabase
              (Registration LifeStyle.PerRequest
                 [("connection_string", VStr "server=dev")] (Implementation SqlDatabase))
              per_request_state
              (state_of (get_instance module_globals 2 IDatabase per_request_state))
              eq_refl) as [Hs _];
    [discriminate..|reflexivity|].
  apply (f_equal (fun m => m !! ILogger)) in Hs. discriminate Hs.
Qed.

(** [IDatabase] registered as ["Transient"]: the lookup builds, also when
    both caches hold an entry for [IDatabase]. *)
Lemma other_life_styles_witness :
  get_instance module_globals 1 IDatabase transient_state
    = Ok (VRef 0) (set_heap (fun h => h ++ [Object "MockDatabase" []]) transient_state) ∧
  get_instance module_globals 1 IDatabase
      (poke IDatabase (Some (VInt 7)) (Some VNone) transient_state)
    = Ok (VRef 0)
         (poke IDatabase (Some (VInt 7)) (Some VNone)
            (set_heap (fun h => h ++ [Object "MockDatabase" []]) transient_state)).
Proof.
  destruct (other_life_styles module_globals 0 IDatabase
              (Registration "Transient" [] (Implementation MockDatabase))
              transient_state eq_refl)
    as (_ & Hbuild & _ & _ & _); [discriminate..|].
  destruct (other_life_styles module_globals 1 IDatabase
              (Registration "Transient" [] (Implementation MockDatabase))
              transient_state eq_refl)
    as (_ & _ & _ & _ & Hpoke); [discriminate..|].
  split; [by rewrite Hbuild|]. by rewrite Hpoke.
Defined.

(** ** Further properties of the container *)

Section Further.

Variable globals : namespace.

Abbreviation resolve_items := (resolve_items globals).
Abbreviation _resolve_constructor_params := (_resolve_constructor_params globals).
Abbreviation _create_instance := (_create_instance globals).
Abbreviation get_instance_body := (get_instance_body globals).
Abbreviation get_instance := (get_instance globals).

(** *** The errors of a lookup *)

(** X1: a lookup raises a [ValueError] exactly when the identity has no
    registration, and then leaves the state as it is; every other failure
    is the [RuntimeError] of the construction-failure handler. *)
Theorem get_instance_error_classes fuel X s e s' :
  get_instance fuel X s = Raise e s' →
  (_registrations s !! X = None ∧ e = no_registration X ∧
   exn_class e = ValueError ∧ s' = s) ∨
  (is_Some (_registrations s !! X) ∧ exn_class e = RuntimeError ∧
   ∃ e0, e = creation_failure X e0).
Proof.
  destruct fuel as [|n]; [done|]. simpl.
  intros [(Hr & -> & ->)|(Hr & e0 & ->)]%get_instance_body_raises.
  - by left.
  - right. split_and!; [done..|]. by exists e0.
Qed.

Lemma create_instance_raises rec X r s e s' :
  _registrations s !! X = Some r →
  _create_instance rec X s = Raise e s' →
  ∃ e0, e = creation_failure X e0.
Proof.
  intros Hr. unfold _create_instance. rewrite Hr.
  intros (e0 & _ & ->)%wrap_failure_Raise. by exists e0.
Qed.

(** X2: for a registered identity a failed lookup is either the refusal
    outside a scope, wrapped once with the state untouched, or a failure of
    [_create_instance], whose error is itself a construction failure and
    reaches the caller wrapped a second time. *)
Theorem construction_failure_wrapped_twice fuel X r s e s' :
  _registrations s !! X = Some r →
  get_instance (S fuel) X s = Raise e s' →
  (e = creation_failure X out_of_scope ∧ s' = s ∧
   life_style r = LifeStyle.Scoped ∧ _in_scope s = false) ∨
  (∃ e0, e = creation_failure X (creation_failure X e0) ∧
         _create_instance (get_instance fuel) X s = Raise (creation_failure X e0) s').
Proof.
  intros Hr. simpl. unfold get_instance_body. rewrite Hr.
  intros (e1 & H & ->)%wrap_failure_Raise.
  assert (Hcreate : _create_instance (get_instance fuel) X s = Raise e1 s' →
    ∃ e0, creation_failure X e1 = creation_failure X (creation_failure X e0) ∧
          _create_instance (get_instance fuel) X s = Raise (creation_failure X e0) s').
  { intros E. destruct (create_instance_raises _ X r s e1 s' Hr E) as [e0 ->].
    by exists e0. }
  destruct (String.eqb_spec (life_style r) LifeStyle.Singleton) as [Hls|Hls].
  { destruct (_singleton_instances s !! X); [done|].
    destruct (_create_instance (get_instance fuel) X s) as [v s1|e2 s1|] eqn:E; [done| |done].
    injection H as -> ->. right. by apply Hcreate. }
  destruct (String.eqb_spec (life_style r) LifeStyle.Scoped) as [Hsc|Hsc].
  - destruct (_in_scope s) eqn:Hin.
    + destruct (_scoped_instances s !! X); [done|].
      destruct (_create_instance (get_instance fuel) X s) as [v s1|e2 s1|] eqn:E; [done| |done].
      injection H as -> ->. right. by apply Hcreate.
    + injection H as <- <-. by left.
  - right. by apply Hcreate.
Qed.

(** *** What a lookup leaves in place *)

(** X3: a lookup, whether it returns or raises, changes neither the
    registrations nor the scope flag, and every object that existed before
    the call is afterwards what it was: objects are only added, and the
    setter injection touches the new instance alone. *)
Theorem lookup_preserves_objects fuel X s s' :
  final_state (get_instance fuel X s) = Some s' →
  _registrations s' = _registrations s ∧
  _in_scope s' = _in_scope s ∧
  length (heap s) ≤ length (heap s') ∧
  (∀ l o, heap s !! l = Some o → heap s' !! l = Some o).
Proof.
  intros [Hr Hi Hh _ _]%get_instance_extends. split_and!; [done..| |].
  - by apply prefix_length.
  - intros l o Hl. by eapply prefix_lookup_Some.
Qed.

(** X4: a lookup never removes or replaces an entry of either cache.  An
    entry appears in the singleton cache only for an identity registered as
    [Singleton], and in the scoped cache only for one registered as
    [Scoped] and only while a scope is active; outside a scope the scoped
    cache is left exactly as it is. *)
Theorem lookup_only_adds_entries fuel X s s' :
  final_state (get_instance fuel X s) = Some s' →
  (∀ Y v, _singleton_instances s !! Y = Some v →
          _singleton_instances s' !! Y = Some v) ∧
  (∀ Y v, _scoped_instances s !! Y = Some v →
          _scoped_instances s' !! Y = Some v) ∧
  (∀ Y, _singleton_instances s !! Y = None →
        is_Some (_singleton_instances s' !! Y) →
        registered_as s LifeStyle.Singleton Y) ∧
  (∀ Y, _scoped_instances s !! Y = None →
        is_Some (_scoped_instances s' !! Y) →
        registered_as s LifeStyle.Scoped Y) ∧
  (_in_scope s = false → _scoped_instances s' = _scoped_instances s).
Proof.
  intros [_ _ _ Hs Hc]%get_instance_extends. split_and!.
  - intros Y v HY. destruct (Hs Y) as [->|[? _]]; congruence.
  - intros Y v HY. destruct (Hc Y) as [->|[? _]]; congruence.
  - intros Y HY [v Hv]. destruct (Hs Y) as [E|[_ ?]]; [congruence|done].
  - intros Y HY [v Hv]. destruct (Hc Y) as [E|(_ & ? & _)]; [congruence|done].
  - intros Hin. apply map_eq. intros Y.
    destruct (Hc Y) as [E|(_ & _ & ?)]; [done|congruence].
Qed.

(** *** Instances across lookups, scopes and operations *)

Lemma step_heap fuel o s s' :
  step globals fuel o s = Some s' → heap s `prefix_of` heap s'.
Proof.
  destruct o as [Y impl ls ps|Y| |]; simpl.
  - unfold register. destruct (strategy_of impl); by intros [= <-].
  - intros He%get_instance_extends. apply He.
  - by intros [= <-].
  - by intros [= <-].
Qed.

Lemma run_heap fuel ops s s' :
  run globals fuel ops s = Some s' → heap s `prefix_of` heap s'.
Proof.
  revert s. induction ops as [|o ops IH]; intros s; simpl; [by intros [= <-]|].
  destruct (step globals fuel o s) as [s1|] eqn:E; [|done].
  intros Hrun. etrans; [by eapply step_heap|by apply IH].
Qed.

Lemma get_instance_scoped_hit fuel X s v :
  registered_as s LifeStyle.Scoped X →
  _in_scope s = true →
  _scoped_instances s !! X = Some v →
  get_instance (S fuel) X s = Ok v s.
Proof.
  intros (r & Hr & Hls) Hin Hc. simpl. unfold get_instance_body.
  by rewrite Hr, Hls, Hin, Hc.
Qed.

(** The instance a lookup returns is the entry of the cache of its life
    style. *)
Lemma lookup_entry fuel X r s v s1 :
  _registrations s !! X = Some r →
  get_instance fuel X s = Ok v s1 →
  (life_style r = LifeStyle.Singleton → _singleton_instances s1 !! X = Some v) ∧
  (life_style r = LifeStyle.Scoped →
     _in_scope s = true ∧ _scoped_instances s1 !! X = Some v).
Proof.
  intros Hr. destruct fuel as [|n]; [done|]. simpl. unfold get_instance_body.
  rewrite Hr, wrap_failure_Ok. intros H.
  split; intros Hls; rewrite Hls in H; simpl in H.
  - destruct (_singleton_instances s !! X) as [v0|] eqn:Hc.
    + by injection H as <- <-.
    + destruct (_create_instance (get_instance n) X s) as [v0 s0|e s0|]; [|done..].
      simpl in H. injection H as <- <-. simpl. apply lookup_insert_eq.
  - destruct (_in_scope s); [|done]. split; [done|].
    destruct (_scoped_instances s !! X) as [v0|] eqn:Hc.
    + by injection H as <- <-.
    + destruct (_create_instance (get_instance n) X s) as [v0 s0|e s0|]; [|done..].
      simpl in H. injection H as <- <-. simpl. apply lookup_insert_eq.
Qed.

Lemma step_scoped_stable fuel o s s' X v :
  scope_free [o] = true →
  step globals fuel o s = Some s' →
  _scoped_instances s !! X = Some v →
  _scoped_instances s' !! X = Some v ∧ _in_scope s' = _in_scope s.
Proof.
  destruct o as [Y impl ls ps|Y| |]; simpl; try done; intros _.
  - unfold register. destruct (strategy_of impl); by intros [= <-].
  - intros He%get_instance_extends Hc. split; [|apply He].
    destruct (ext_scoped s s' He X) as [->|[? _]]; congruence.
Qed.

Lemma run_scoped_stable fuel ops s s' X v :
  scope_free ops = true →
  run globals fuel ops s = Some s' →
  _scoped_instances s !! X = Some v →
  _scoped_instances s' !! X = Some v ∧ _in_scope s' = _in_scope s.
Proof.
  revert s. induction ops as [|o ops IH]; intros s; simpl.
  { by intros _ [= <-]. }
  intros [Ho Hops]%andb_true_iff.
  destruct (step globals fuel o s) as [s1|] eqn:E; [|done].
  intros Hrun Hc.
  destruct (step_scoped_stable fuel o s s1 X v) as [Hc1 Hin1]; [by simpl; rewrite Ho|done..|].
  destruct (IH s1 Hops Hrun Hc1) as [Hc2 Hin2]. split; congruence.
Qed.

(** X5: within one activation of a scope a [Scoped] identity has one
    instance: once a lookup has returned it, every later lookup returns the
    identical instance and changes nothing, whatever registrations and
    lookups come in between, as long as no scope is entered or left and the
    identity is still registered as [Scoped]. *)
Theorem scoped_identity fuel X s v s1 :
  registered_as s LifeStyle.Scoped X →
  get_instance fuel X s = Ok v s1 →
  _in_scope s = true ∧
  _scoped_instances s1 !! X = Some v ∧
  (∀ fuel' ops s2,
     scope_free ops = true →
     run globals fuel' ops s1 = Some s2 →
     registered_as s2 LifeStyle.Scoped X →
     ∀ fuel'', get_instance (S fuel'') X s2 = Ok v s2).
Proof.
  intros (r & Hr & Hls) Hget.
  destruct (lookup_entry fuel X r s v s1 Hr Hget) as [_ Hsc].
  destruct (Hsc Hls) as [Hin Hc]. split_and!; [done..|].
  intros fuel' ops s2 Hfree Hrun Hreg2 fuel''.
  destruct (run_scoped_stable fuel' ops s1 s2 X v Hfree Hrun Hc) as [Hc2 Hin2].
  apply get_instance_scoped_hit; [done| |done].
  rewrite Hin2, <- Hin.
  apply (ext_in_scope s s1), (get_instance_extends globals fuel X). by rewrite Hget.
Qed.

(** A reference that a build has returned lies in the heap. *)
Lemma built_from_class_bounds r c s v s' :
  strat r = Implementation c →
  built_from r s v s' →
  ∃ l, v = VRef l ∧ length (heap s) ≤ l < length (heap s').
Proof.
  unfold built_from. intros ->. intros (l & o & -> & Hl & Ho & _).
  exists l. split_and!; [done..|]. by eapply lookup_lt_Some.
Qed.

(** X6: an identity whose life style is neither [Singleton] nor [Scoped],
    bound to a class, gets a different object at every lookup: the
    instances of two lookups, whatever operations come in between, are never
    the same reference. *)
Theorem transient_instances_distinct fuel fuel' fuel'' X r c s v1 s1 ops s2 r2 c2 v2 s3 :
  _registrations s !! X = Some r →
  strat r = Implementation c →
  life_style r ≠ LifeStyle.Singleton → life_style r ≠ LifeStyle.Scoped →
  get_instance fuel X s = Ok v1 s1 →
  run globals fuel' ops s1 = Some s2 →
  _registrations s2 !! X = Some r2 →
  strat r2 = Implementation c2 →
  life_style r2 ≠ LifeStyle.Singleton → life_style r2 ≠ LifeStyle.Scoped →
  get_instance fuel'' X s2 = Ok v2 s3 →
  v1 ≠ v2.
Proof.
  intros Hr Hc Hls1 Hls2 Hget1 Hrun Hr2 Hc2 Hls3 Hls4 Hget2.
  destruct (built_from_class_bounds r c s v1 s1 Hc) as (l1 & -> & _ & Hl1).
  { apply (get_instance_built globals fuel X); [done|by split|done]. }
  destruct (built_from_class_bounds r2 c2 s2 v2 s3 Hc2) as (l2 & -> & Hl2 & _).
  { apply (get_instance_built globals fuel'' X); [done|by split|done]. }
  pose proof (prefix_length _ _ (run_heap fuel' ops s1 s2 Hrun)) as Hlen.
  intros [= ->]. lia.
Qed.

(** X7: a [Scoped] identity bound to a class gets a new object in every
    activation: the instance looked up after one entry of a scope and the
    instance looked up after a later entry, nested or not, are never the
    same reference. *)
Theorem scoped_instances_differ_across_activations
    fuel fuel' fuel'' X r c s v1 s1 ops s2 r2 c2 v2 s3 :
  _registrations s !! X = Some r →
  strat r = Implementation c →
  life_style r = LifeStyle.Scoped →
  get_instance fuel X (Scope.__enter__ s) = Ok v1 s1 →
  run globals fuel' ops s1 = Some s2 →
  _registrations s2 !! X = Some r2 →
  strat r2 = Implementation c2 →
  life_style r2 = LifeStyle.Scoped →
  get_instance fuel'' X (Scope.__enter__ s2) = Ok v2 s3 →
  v1 ≠ v2.
Proof.
  intros Hr Hc Hls Hget1 Hrun Hr2 Hc2 Hls2 Hget2.
  assert (Hmiss : ∀ s0 ls, ls = LifeStyle.Scoped → cache_miss (Scope.__enter__ s0) X ls).
  { intros s0 ls ->. split; [discriminate|done]. }
  destruct (built_from_class_bounds r c (Scope.__enter__ s) v1 s1 Hc) as (l1 & -> & _ & Hl1).
  { apply (get_instance_built globals fuel X); [done|by apply Hmiss|done]. }
  destruct (built_from_class_bounds r2 c2 (Scope.__enter__ s2) v2 s3 Hc2)
    as (l2 & -> & Hl2 & _).
  { apply (get_instance_built globals fuel'' X); [done|by apply Hmiss|done]. }
  pose proof (prefix_length _ _ (run_heap fuel' ops s1 s2 Hrun)) as Hlen.
  simpl in Hl2. intros [= ->]. lia.
Qed.

(** X8: when a scope has ended, normally or with an exception, every lookup
    of a [Scoped] identity is refused with the wrapped out-of-scope error
    and leaves the state as it is; a [Singleton] obtained inside the scope
    is still served, the identical instance, after it. *)
Theorem after_scope {A} (body : state → outcome A) fuel X s s' :
  (final_state (with_scope body s) = Some s' →
   registered_as s' LifeStyle.Scoped X →
   ∀ fuel', get_instance (S fuel') X s' = Raise (creation_failure X out_of_scope) s') ∧
  (∀ v, with_scope (get_instance fuel X) s = Ok v s' →
        registered_as s LifeStyle.Singleton X →
        ∀ fuel', get_instance (S fuel') X s' = Ok v s').
Proof.
  split.
  - unfold with_scope. intros H Hreg fuel'.
    apply get_instance_out_of_scope; [done|].
    destruct (body (Scope.__enter__ s)) as [a s0|e s0|]; by simplify_eq/=.
  - unfold with_scope. intros v H (r & Hr & Hls) fuel'.
    destruct (get_instance fuel X (Scope.__enter__ s)) as [v0 s0|e s0|] eqn:E; [|done..].
    injection H as -> <-.
    destruct (lookup_entry fuel X r (Scope.__enter__ s) v s0 Hr E) as [Hentry _].
    apply get_instance_singleton_hit; [|by apply Hentry].
    exists r. split; [|done]. simpl.
    rewrite (ext_registrations (Scope.__enter__ s) s0); [done|].
    apply (get_instance_extends globals fuel X). by rewrite E.
Qed.

(** *** The setter injection when the logger is there *)

Lemma cache_instance_singleton_ne ls X v s D :
  X ≠ D →
  _singleton_instances (cache_instance ls X v s) !! D = _singleton_instances s !! D.
Proof.
  intros Hne. unfold cache_instance. repeat case_match; simpl; [|done..].
  by rewrite lookup_insert_ne.
Qed.

(** An entry of the singleton cache is what every lookup returns from then
    on, whatever operations come first, while the identity is registered
    as [Singleton]. *)
Lemma singleton_entry_stable fuel ops s s' D inst :
  _singleton_instances s !! D = Some inst →
  run globals fuel ops s = Some s' →
  registered_as s' LifeStyle.Singleton D →
  ∀ fuel', get_instance (S fuel') D s' = Ok inst s'.
Proof.
  intros Hentry Hrun Hreg fuel'. apply get_instance_singleton_hit; [done|].
  by eapply run_singleton_stable.
Qed.

(** X9: for a class with [set_logger], when the lookup of [ILogger]
    succeeds and the setter returns, the instance returned carries the
    attributes the setter left; with the [set_logger] of the module its
    [_logger] is the logger that lookup returned.  When the registrations
    are acyclic and [ILogger] is a [Singleton], the lookup that builds the
    instance leaves that logger in the singleton cache, the instance keeps
    its attributes, and every lookup of [ILogger] after it, whatever
    operations come in between, returns that same logger while [ILogger]
    stays registered as [Singleton]. *)
Theorem setter_injects_logger fuel X s r c setter cp s1 attrs logger s3 attrs' :
  _registrations s !! X = Some r →
  strat r = Implementation c →
  cls_set_logger c = Some setter →
  _resolve_constructor_params (get_instance fuel) (params r) s = Ok cp s1 →
  cls_init c cp = inr attrs →
  get_instance fuel ILogger (alloc (Object (cls_name c) attrs) s1).2 = Ok logger s3 →
  setter logger attrs = inr attrs' →
  let l := length (heap s1) in
  let s4 := set_heap (insert l (Object (cls_name c) attrs')) s3 in
  _create_instance (get_instance fuel) X s = Ok (VRef l) s4 ∧
  heap s4 !! l = Some (Object (cls_name c) attrs') ∧
  (setter = store_logger → dict_get "_logger" attrs' = Some logger) ∧
  (∀ rank, ranked globals rank s →
     registered_as s LifeStyle.Singleton ILogger →
     cache_miss s X (life_style r) →
     let s5 := cache_instance (life_style r) X (VRef l) s4 in
     get_instance (S fuel) X s = Ok (VRef l) s5 ∧
     ∀ fuel' ops s6,
       run globals fuel' ops s5 = Some s6 →
       heap s6 !! l = Some (Object (cls_name c) attrs') ∧
       (registered_as s6 LifeStyle.Singleton ILogger →
          ∀ fuel'', get_instance (S fuel'') ILogger s6 = Ok logger s6)).
Proof.
  intros Hr Hst Hset Hres Hinit Hlog Hsetter l s4.
  assert (He1 : extends s s1).
  { apply (resolve_extends globals fuel (params r)). by rewrite Hres. }
  assert (He3 : extends (alloc (Object (cls_name c) attrs) s1).2 s3).
  { apply (get_instance_extends globals fuel ILogger). by rewrite Hlog. }
  assert (Hcreate : _create_instance (get_instance fuel) X s = Ok (VRef l) s4).
  { unfold _create_instance. rewrite Hr, Hst, Hres. simpl.
    unfold construct. rewrite Hinit. simpl. unfold inject_logger.
    rewrite Hset. simpl in Hlog. by rewrite Hlog, Hsetter. }
  assert (Hheap : heap s4 !! l = Some (Object (cls_name c) attrs')).
  { simpl. apply list_lookup_insert_eq. eapply lookup_lt_Some.
    eapply prefix_lookup_Some; [apply lookup_alloc|apply He3]. }
  split_and!; [done|done| |].
  - intros ->. unfold store_logger in Hsetter. injection Hsetter as <-.
    apply dict_get_set_eq.
  - intros rank Hrk (rl & Hrl & Hls) Hmiss s5.
    assert (Hget : get_instance (S fuel) X s = Ok (VRef l) s5).
    { simpl. by rewrite (get_instance_body_miss globals _ X s r Hr Hmiss), Hcreate. }
    split; [done|]. intros fuel' ops s6 Hrun. split.
    { eapply prefix_lookup_Some; [|by eapply run_heap].
      unfold s5. by rewrite heap_cache_instance. }
    assert (Hrl1 : _registrations (alloc (Object (cls_name c) attrs) s1).2 !! ILogger
                   = Some rl).
    { simpl. by rewrite (ext_registrations s s1). }
    destruct (lookup_entry fuel ILogger rl _ logger s3 Hrl1 Hlog) as [Hentry _].
    assert (Hne : X ≠ ILogger).
    { intros ->. assert (Hlt := Hrk ILogger r ILogger Hr). unfold deps_of in Hlt.
      rewrite Hst, Hset in Hlt.
      specialize (Hlt ltac:(apply elem_of_app; right; by left)). lia. }
    apply (singleton_entry_stable fuel' ops s5); [|done].
    unfold s5. rewrite cache_instance_singleton_ne by done. by apply Hentry.
Qed.


(** *** Parameters without back-references *)

Lemma dict_set_fresh k v d : k ∉ dict_keys d → dict_set k v d = d ++ [(k, v)].
Proof.
  induction d as [|[k' v'] d IH]; simpl; [done|].
  intros [Hne Hk]%not_elem_of_cons.
  destruct (String.eqb_spec k k'); [done|]. by rewrite IH.
Qed.

Lemma resolve_items_literal rec items acc s :
  literal_params items = true →
  NoDup (dict_keys acc ++ dict_keys items) →
  resolve_items rec items acc s = Ok (acc ++ items) s.
Proof.
  revert acc. induction items as [|[k v] items IH]; intros acc; simpl.
  { intros _ _. by rewrite app_nil_r. }
  intros [Hv Hlit]%andb_true_iff Hnd. simpl in Hv.
  destruct (back_reference v); [done|].
  rewrite dict_set_fresh.
  - rewrite IH; [by rewrite <- (assoc_L (++))|done|].
    unfold dict_keys in *. by rewrite map_app, <- (assoc_L (++)).
  - apply NoDup_app in Hnd as (_ & Hdisj & _). intros Hk.
    apply (Hdisj k Hk). by left.
Qed.

(** Literal entries are gone through without a nested lookup and without
    a change of state. *)
Lemma resolve_items_literal_state rec items acc s :
  literal_params items = true →
  ∃ acc', resolve_items rec items acc s = Ok acc' s.
Proof.
  revert acc. induction items as [|[k v] items IH]; intros acc; simpl; [by eexists|].
  intros [Hv Hlit]%andb_true_iff. simpl in Hv.
  destruct (back_reference v); [done|]. by apply IH.
Qed.

(** X11: a parameter map without back-reference markers resolves to
    itself, in the same order: no lookup is made and the state is
    untouched. *)
Theorem literal_params_resolve rec ps s :
  literal_params ps = true →
  NoDup (dict_keys ps) →
  _resolve_constructor_params rec ps s = Ok ps s.
Proof.
  intros Hlit Hnd. unfold _resolve_constructor_params.
  by rewrite resolve_items_literal.
Qed.

(** X12: a class registered with literal parameters that its constructor
    accepts, and without [set_logger], is built by the first lookup that
    has to build: the instance is a new object of the class with the
    attributes the constructor makes of exactly the registered parameters,
    inserted as the life style says.  One level of lookup is enough. *)
Theorem register_then_lookup X c ls ps attrs s :
  literal_params ps = true →
  NoDup (dict_keys ps) →
  cls_init c ps = inr attrs →
  cls_set_logger c = None →
  cache_miss s X ls →
  ∃ s1,
    register X (ImplClass c) ls (Some ps) s = Ok tt s1 ∧
    get_instance 1 X s1 =
      Ok (VRef (length (heap s)))
         (cache_instance ls X (VRef (length (heap s)))
            (set_heap (fun h => h ++ [Object (cls_name c) attrs]) s1)).
Proof.
  intros Hlit Hnd Hinit Hset Hmiss. eexists. split; [reflexivity|].
  simpl. rewrite (get_instance_body_miss globals _ X _ (Registration ls ps (Implementation c))).
  - unfold _create_instance. simpl. rewrite lookup_insert_eq. simpl.
    unfold _resolve_constructor_params. rewrite resolve_items_literal by done.
    simpl. unfold construct. rewrite Hinit. simpl. unfold inject_logger.
    by rewrite Hset.
  - simpl. by rewrite lookup_insert_eq.
  - done.
Qed.

(** The first back-reference of a parameter map decides, when it cannot
    be followed. *)
Lemma resolve_first_reference rec pre k name post s :
  literal_params pre = true →
  (globals !! name = None →
   resolve_items rec (pre ++ (k, VStr (String "@"%char name)) :: post) [] s
     = Raise (dependency_not_found name) s) ∧
  (∀ D e, globals !! name = Some (Identity D) → rec D s = Raise e s →
   is_KeyError e = false →
   resolve_items rec (pre ++ (k, VStr (String "@"%char name)) :: post) [] s
     = Raise e s) ∧
  (∀ e, globals !! name = Some (NotIdentity e) → is_KeyError e = false →
   resolve_items rec (pre ++ (k, VStr (String "@"%char name)) :: post) [] s
     = Raise e s).
Proof.
  intros Hlit. rewrite resolve_items_app.
  destruct (resolve_items_literal_state rec pre [] s Hlit) as [acc ->]. simpl.
  split_and!.
  - by intros ->.
  - intros D e -> Hrec. simpl. by rewrite Hrec; intros ->.
  - intros e ->. simpl. by intros ->.
Qed.

(** X13: a class strategy whose first back-reference cannot be followed
    fails at the lookup that has to build it, and nothing is built or
    cached: the state is as before.  If [globals()] does not know the name
    the cause is "Dependency name not found"; if the name denotes an
    identity without registration the cause is that identity's "No
    registration found"; either reaches the caller wrapped twice. *)
Theorem unresolved_dependency X r c pre k name post s :
  _registrations s !! X = Some r →
  strat r = Implementation c →
  params r = pre ++ (k, VStr (String "@"%char name)) :: post →
  literal_params pre = true →
  cache_miss s X (life_style r) →
  (globals !! name = None →
   ∀ fuel, get_instance (S fuel) X s =
           Raise (creation_failure X (creation_failure X (dependency_not_found name))) s) ∧
  (∀ D, globals !! name = Some (Identity D) → _registrations s !! D = None →
   ∀ fuel, get_instance (S (S fuel)) X s =
           Raise (creation_failure X (creation_failure X (no_registration D))) s).
Proof.
  intros Hr Hst Hps Hlit Hmiss.
  assert (Hfail : ∀ fuel e,
    resolve_items (get_instance fuel) (params r) [] s = Raise e s →
    get_instance (S fuel) X s = Raise (creation_failure X (creation_failure X e)) s).
  { intros fuel e Hres. simpl.
    rewrite (get_instance_body_miss globals _ X s r Hr Hmiss).
    unfold _create_instance, _resolve_constructor_params. by rewrite Hr, Hst, Hres. }
  split.
  - intros Hg fuel. apply Hfail. rewrite Hps.
    destruct (resolve_first_reference (get_instance fuel) pre k name post s Hlit)
      as (Hcase & _).
    by apply Hcase.
  - intros D Hg HD fuel. apply Hfail. rewrite Hps.
    destruct (resolve_first_reference (get_instance (S fuel)) pre k name post s Hlit)
      as (_ & Hcase & _).
    apply (Hcase D); [done| |done].
    by apply get_instance_unregistered.
Qed.

(** *** Dependents of a singleton *)

Lemma resolve_items_extends fuel items acc s s' :
  final_state (resolve_items (get_instance fuel) items acc s) = Some s' →
  extends s s'.
Proof.
  apply (resolve_items_frame globals extends extends_refl extends_trans
           ext_registrations (get_instance fuel) (_registrations s)); [|done].
  intros D _ s1 s2 _. apply get_instance_extends.
Qed.

Lemma referenced_elem pre k name post D :
  globals !! name = Some (Identity D) →
  D ∈ referenced globals (pre ++ (k, VStr (String "@"%char name)) :: post).
Proof.
  intros Hg. unfold referenced. apply list_elem_of_omap.
  exists (k, VStr (String "@"%char name)). split.
  - apply elem_of_app. right. by left.
  - simpl. by rewrite Hg.
Qed.

(** The resolver stores under the parameter's name the instance that the
    singleton cache holds when it returns. *)
Lemma resolved_singleton fuel pre k name post D s res s' :
  _resolve_constructor_params (get_instance fuel)
    (pre ++ (k, VStr (String "@"%char name)) :: post) s = Ok res s' →
  globals !! name = Some (Identity D) →
  registered_as s LifeStyle.Singleton D →
  k ∉ dict_keys post →
  ∃ inst, dict_get k res = Some inst ∧ _singleton_instances s' !! D = Some inst.
Proof.
  unfold _resolve_constructor_params. rewrite resolve_items_app.
  intros Hres Hg (r & Hr & Hls) Hk.
  destruct (resolve_items (get_instance fuel) pre [] s) as [acc s1|e s1|] eqn:Epre;
    [|done..].
  simpl in Hres. rewrite Hg in Hres. simpl in Hres.
  destruct (get_instance fuel D s1) as [inst s2|e s2|] eqn:ED;
    [| by destruct (is_KeyError e) |done].
  assert (He1 : extends s s1) by (apply (resolve_items_extends fuel pre []); by rewrite Epre).
  assert (Hr1 : _registrations s1 !! D = Some r) by by rewrite (ext_registrations s s1).
  destruct (lookup_entry fuel D r s1 inst s2 Hr1 ED) as [Hentry _].
  assert (He3 : extends s2 s').
  { apply (resolve_items_extends fuel post (dict_set k inst acc)). by rewrite Hres. }
  exists inst. split.
  - rewrite (resolve_items_keeps globals _ k post _ _ _ _ Hres Hk). apply dict_get_set_eq.
  - eapply extends_singleton_stable; [done|]. by apply Hentry.
Qed.

(** X18: with acyclic registrations, a class built from a parameter that
    refers to a [Singleton] identity receives the singleton itself: the
    lookup that builds the class calls its constructor with, under the
    parameter's name, the instance that every lookup of that identity
    returns afterwards, whatever operations come in between, while the
    identity stays registered as [Singleton]. *)
Theorem singleton_dependency_shared rank fuel X r c pre k name post D s v s5 :
  ranked globals rank s →
  _registrations s !! X = Some r →
  strat r = Implementation c →
  params r = pre ++ (k, VStr (String "@"%char name)) :: post →
  k ∉ dict_keys post →
  globals !! name = Some (Identity D) →
  registered_as s LifeStyle.Singleton D →
  cache_miss s X (life_style r) →
  get_instance (S fuel) X s = Ok v s5 →
  ∃ inst cp s1 attrs,
    _resolve_constructor_params (get_instance fuel) (params r) s = Ok cp s1 ∧
    dict_get k cp = Some inst ∧
    cls_init c cp = inr attrs ∧
    ∀ fuel' ops s6,
      run globals fuel' ops s5 = Some s6 →
      registered_as s6 LifeStyle.Singleton D →
      ∀ fuel'', get_instance (S fuel'') D s6 = Ok inst s6.
Proof.
  intros Hrk Hr Hst Hps Hk Hg Hreg Hmiss Hget. simpl in Hget.
  rewrite (get_instance_body_miss globals _ X s r Hr Hmiss), wrap_failure_Ok in Hget.
  destruct (_create_instance (get_instance fuel) X s) as [v0 s4|e s4|] eqn:Ec; [|done..].
  simpl in Hget. injection Hget as -> <-.
  unfold _create_instance in Ec. rewrite Hr, Hst, wrap_failure_Ok in Ec.
  destruct (_resolve_constructor_params (get_instance fuel) (params r) s)
    as [cp s1|e s1|] eqn:Eres; [|done..].
  simpl in Ec.
  assert (Hres := Eres). rewrite Hps in Hres.
  destruct (resolved_singleton fuel pre k name post D s cp s1 Hres Hg Hreg Hk)
    as (inst & Hcp & Hentry).
  destruct (construct_result globals fuel c cp s1 v s4 Ec) as (o & _ & _ & _ & He4).
  assert (Hinit : ∃ attrs, cls_init c cp = inr attrs).
  { unfold construct in Ec. destruct (cls_init c cp) as [e|attrs]; [done|]. by exists attrs. }
  destruct Hinit as [attrs Hinit].
  exists inst, cp, s1, attrs. split_and!; [done..|].
  intros fuel' ops s6 Hrun Hreg6.
  apply (singleton_entry_stable fuel' ops (cache_instance (life_style r) X v s4)); [|done..].
  assert (Hne : X ≠ D).
  { intros ->. assert (Hlt := Hrk D r D Hr). unfold deps_of in Hlt. rewrite Hst in Hlt.
    specialize (Hlt ltac:(apply elem_of_app; left; rewrite Hps; by apply referenced_elem)).
    lia. }
  rewrite cache_instance_singleton_ne by done.
  by eapply extends_singleton_stable.
Qed.

(** *** The states an injector can be in *)

Lemma well_formed_Injector : well_formed Injector.
Proof.
  split; simpl; [done| |]; intros Y [v Hv]; by rewrite lookup_empty in Hv.
Qed.

Lemma step_well_formed fuel o s s' :
  well_formed s → step globals fuel o s = Some s' → well_formed s'.
Proof.
  intros [Hout Hsingle Hscoped]. destruct o as [Y impl ls ps|Y| |]; simpl.
  - unfold register. destruct (strategy_of impl); intros [= <-]; [|done].
    split; simpl; [done| |]; intros Z HZ;
      (destruct (decide (Y = Z)) as [->|Hne];
       [by rewrite lookup_insert_eq|rewrite lookup_insert_ne by done; auto]).
  - intros [Hr Hi _ Hs Hc]%get_instance_extends. split.
    + rewrite Hi. intros Hin. rewrite <- (Hout Hin). apply map_eq. intros Z.
      destruct (Hc Z) as [E|(_ & _ & ?)]; [done|congruence].
    + intros Z HZ. rewrite Hr.
      destruct (Hs Z) as [E|[_ (r & Hreg & _)]]; [apply Hsingle; by rewrite <- E|by eexists].
    + intros Z HZ. rewrite Hr.
      destruct (Hc Z) as [E|(_ & (r & Hreg & _) & _)]; [apply Hscoped; by rewrite <- E|by eexists].
  - intros [= <-]. split; simpl; [done|done|].
    intros Z [v Hv]. by rewrite lookup_empty in Hv.
  - intros [= <-]. split; simpl; [done|done|].
    intros Z [v Hv]. by rewrite lookup_empty in Hv.
Qed.

Lemma run_well_formed fuel ops s s' :
  well_formed s → run globals fuel ops s = Some s' → well_formed s'.
Proof.
  revert s. induction ops as [|o ops IH]; intros s Hwf; simpl; [by intros [= <-]|].
  destruct (step globals fuel o s) as [s1|] eqn:E; [|done].
  apply IH. by eapply step_well_formed.
Qed.

(** X14: whatever registrations, lookups, scope entries and scope exits an
    injector has gone through since it was created, outside a scope its
    scoped cache is empty, and every identity with an entry in either cache
    is registered. *)
Theorem reachable_well_formed fuel ops s :
  run globals fuel ops Injector = Some s →
  (_in_scope s = false → _scoped_instances s = ∅) ∧
  (∀ Y, is_Some (_singleton_instances s !! Y) → is_Some (_registrations s !! Y)) ∧
  (∀ Y, is_Some (_scoped_instances s !! Y) → is_Some (_registrations s !! Y)).
Proof.
  intros Hrun.
  destruct (run_well_formed fuel ops Injector s well_formed_Injector Hrun)
    as [H1 H2 H3].
  by split_and!.
Qed.

(** *** Acyclic registrations *)

(** X15: when the registrations are acyclic, ranked so that every
    dependency lies below its dependent, a lookup ends: with a nesting
    depth above the rank of the identity it returns or raises, and a larger
    depth gives the same answer. *)
Theorem acyclic_lookup_answers rank fuel X s :
  ranked globals rank s →
  rank X < fuel →
  get_instance fuel X s ≠ Timeout ∧
  (∀ fuel', fuel ≤ fuel' → get_instance fuel' X s = get_instance fuel X s).
Proof.
  intros Hrk Hlt.
  assert (H : get_instance fuel X s ≠ Timeout) by by apply (get_instance_total globals rank).
  split; [done|]. intros fuel' Hle. by apply get_instance_mono.
Qed.

End Further.

(** *** Registration and the two configurations *)

Lemma state_eq rs rs' ss cs b h :
  rs = rs' → State rs ss cs b h = State rs' ss cs b h.
Proof. by intros ->. Qed.

(** X16: registrations of different identities can be made in either
    order; a registration never builds anything, leaving both caches, the
    scope flag, the heap and the other registrations as they are; and an
    implementation that is neither a class nor a callable is refused with a
    [ValueError], the injector unchanged. *)
Theorem registrations_commute X Y i1 ls1 ps1 i2 ls2 ps2 s :
  X ≠ Y →
  state_of (register Y i2 ls2 ps2 (state_of (register X i1 ls1 ps1 s))) =
  state_of (register X i1 ls1 ps1 (state_of (register Y i2 ls2 ps2 s))) ∧
  (∀ s', final_state (register X i1 ls1 ps1 s) = Some s' →
     _singleton_instances s' = _singleton_instances s ∧
     _scoped_instances s' = _scoped_instances s ∧
     _in_scope s' = _in_scope s ∧
     heap s' = heap s ∧
     (∀ Z, Z ≠ X → _registrations s' !! Z = _registrations s !! Z)) ∧
  (∀ v, register X (ImplOther v) ls1 ps1 s =
        Raise (Exn ValueError "Implementation must be a class or callable factory method") s).
Proof.
  intros Hne. split_and!.
  - unfold register, state_of.
    destruct (strategy_of i1) as [st1|], (strategy_of i2) as [st2|]; simpl; try done.
    unfold set_registrations; simpl. apply state_eq. by apply insert_insert_ne.
  - intros s'. unfold register. destruct (strategy_of i1); intros [= <-]; [|done].
    split_and!; [done..|]. intros Z HZ. simpl. by rewrite lookup_insert_ne.
  - done.
Qed.

(** X17: [configure_dev] and [configure_prod] always succeed, on any
    injector; each rebinds [ILogger], [IDatabase] and [IEmailService] and
    nothing else, builds nothing, and is idempotent; applied one after the
    other, the later configuration alone remains. *)
Theorem configurations_compose s :
  ∃ s_dev s_prod,
    configure_dev s = Ok tt s_dev ∧
    configure_prod s = Ok tt s_prod ∧
    configure_dev s_dev = Ok tt s_dev ∧
    configure_prod s_prod = Ok tt s_prod ∧
    configure_prod s_dev = Ok tt s_prod ∧
    configure_dev s_prod = Ok tt s_dev ∧
    (∀ s', s' = s_dev ∨ s' = s_prod →
       _singleton_instances s' = _singleton_instances s ∧
       _scoped_instances s' = _scoped_instances s ∧
       _in_scope s' = _in_scope s ∧
       heap s' = heap s ∧
       (∀ Z, Z ∉ [ILogger; IDatabase; IEmailService] →
             _registrations s' !! Z = _registrations s !! Z)).
Proof.
  eexists _, _. split_and!; [reflexivity|reflexivity|..].
  1-4: unfold configure_dev, configure_prod, register; simpl;
       unfold set_registrations; simpl; f_equal; apply state_eq;
       apply map_eq; intros Z;
       unfold ILogger, IDatabase, IEmailService;
       rewrite !lookup_insert; repeat case_decide; congruence.
  intros s' [-> | ->]; (split_and!; [done..|]); intros Z HZ; simpl;
    rewrite !lookup_insert_ne; try done; intros <-; apply HZ; set_solver.
Qed.

(** ** The further properties at concrete injectors *)

(** After [configure_prod], the refusal of [IDatabase] outside a scope. *)
Lemma get_instance_error_classes_witness :
  is_Some (_registrations prod !! IDatabase) ∧
  exn_class (creation_failure IDatabase out_of_scope) = RuntimeError.
Proof.
  destruct (get_instance_error_classes module_globals 1 IDatabase prod
              (creation_failure IDatabase out_of_scope) prod eq_refl)
    as [(H & _)|(H1 & H2 & _)]; [discriminate H|by split].
Defined.

(** The failed lookup of [IDatabase] with the back-reference ['@ICache']. *)
Lemma construction_failure_wrapped_twice_witness :
  let out := get_instance module_globals 2 IDatabase broken_state in
  ∃ e0, out = Raise (creation_failure IDatabase (creation_failure IDatabase e0))
                    (state_of out).
Proof.
  intros out.
  destruct (construction_failure_wrapped_twice module_globals 1 IDatabase
              (Registration LifeStyle.Singleton
                 [("connection_string", VStr "server=prod;database=app");
                  ("logger", VStr "@ILogger"); ("cache", VStr "@ICache")]
                 (Implementation SqlDatabase))
              broken_state
              (creation_failure IDatabase
                 (creation_failure IDatabase (dependency_not_found "ICache")))
              (state_of out) eq_refl eq_refl)
    as [(H & _)|(e0 & H & _)]; [discriminate H|].
  exists (dependency_not_found "ICache"). reflexivity.
Defined.

(** The lookup of the [PerRequest] [SqlDatabase] beside a [Singleton]
    logger: two objects are added to an empty heap. *)
Lemma lookup_preserves_objects_witness :
  let s' := state_of (get_instance module_globals 2 IDatabase per_request_state) in
  _registrations s' = _registrations per_request_state ∧
  _in_scope s' = false ∧
  length (heap per_request_state) ≤ length (heap s').
Proof.
  intros s'.
  destruct (lookup_preserves_objects module_globals 2 IDatabase per_request_state s' eq_refl)
    as (H1 & H2 & H3 & _).
  by split_and!.
Defined.

Lemma lookup_only_adds_entries_witness :
  let s' := state_of (get_instance module_globals 2 IDatabase per_request_state) in
  registered_as per_request_state LifeStyle.Singleton ILogger ∧
  _scoped_instances s' = _scoped_instances per_request_state.
Proof.
  intros s'.
  destruct (lookup_only_adds_entries module_globals 2 IDatabase per_request_state s' eq_refl)
    as (_ & _ & H3 & _ & H5).
  split; [|by apply H5]. apply H3; [reflexivity|]. by eexists.
Defined.

(** After [configure_dev], inside a scope: the mail service is looked up,
    then a database, then the mail service again. *)
Lemma scoped_identity_witness :
  let s1 := state_of (get_instance module_globals 1 IEmailService (Scope.__enter__ dev)) in
  let s2 := default Injector (run module_globals 1 [OpGetInstance IDatabase] s1) in
  get_instance module_globals 1 IEmailService s2 = Ok (VRef 0) s2.
Proof.
  intros s1 s2.
  assert (Hreg : ∀ s, _registrations s = _registrations dev →
                      registered_as s LifeStyle.Scoped IEmailService).
  { intros s Hs. eexists. rewrite Hs. split; reflexivity. }
  destruct (scoped_identity module_globals 1 IEmailService (Scope.__enter__ dev)
              (VRef 0) s1 (Hreg _ eq_refl) eq_refl) as (_ & _ & H).
  exact (H 1 [OpGetInstance IDatabase] s2 eq_refl eq_refl (Hreg _ eq_refl) 0).
Defined.

(** After [configure_dev]: two lookups of the [PerRequest] database. *)
Lemma transient_instances_distinct_witness :
  let out1 := get_instance module_globals 1 IDatabase dev in
  let out2 := get_instance module_globals 1 IDatabase (state_of out1) in
  out1 = Ok (VRef 0) (state_of out1) ∧ out2 = Ok (VRef 1) (state_of out2) ∧
  VRef 0 ≠ VRef 1.
Proof.
  intros out1 out2. split_and!; [reflexivity..|].
  apply (transient_instances_distinct module_globals 1 0 1 IDatabase
           (Registration LifeStyle.PerRequest [] (Implementation MockDatabase))
           MockDatabase dev (VRef 0) (state_of out1) [] (state_of out1)
           (Registration LifeStyle.PerRequest [] (Implementation MockDatabase))
           MockDatabase (VRef 1) (state_of out2));
    (reflexivity || discriminate).
Defined.

(** After [configure_dev]: the mail service in one activation and in the
    next. *)
Lemma scoped_instances_differ_across_activations_witness :
  let out1 := get_instance module_globals 1 IEmailService (Scope.__enter__ dev) in
  let s2 := Scope.__exit__ (state_of out1) in
  let out2 := get_instance module_globals 1 IEmailService (Scope.__enter__ s2) in
  out1 = Ok (VRef 0) (state_of out1) ∧ out2 = Ok (VRef 1) (state_of out2) ∧
  VRef 0 ≠ VRef 1.
Proof.
  intros out1 s2 out2. split_and!; [reflexivity..|].
  apply (scoped_instances_differ_across_activations module_globals 1 0 1 IEmailService
           (Registration LifeStyle.Scoped [] (Implementation MockEmailService))
           MockEmailService dev (VRef 0) (state_of out1) [OpExit] s2
           (Registration LifeStyle.Scoped [] (Implementation MockEmailService))
           MockEmailService (VRef 1) (state_of out2));
    reflexivity.
Defined.

(** After [configure_dev]: a scope in which the mail service is looked up,
    and one in which the logger is. *)
Lemma after_scope_witness :
  let s1 := state_of (with_scope (get_instance module_globals 1 IEmailService) dev) in
  let s2 := state_of (with_scope (get_instance module_globals 1 ILogger) dev) in
  get_instance module_globals 1 IEmailService s1
    = Raise (creation_failure IEmailService out_of_scope) s1 ∧
  get_instance module_globals 1 ILogger s2 = Ok (VRef 0) s2.
Proof.
  intros s1 s2. split.
  - apply (after_scope module_globals (get_instance module_globals 1 IEmailService)
             0 IEmailService dev s1); [reflexivity|].
    eexists. split; reflexivity.
  - apply (after_scope module_globals (get_instance module_globals 1 ILogger)
             1 ILogger dev s2); [reflexivity|].
    eexists. split; reflexivity.
Defined.

(** The [PerRequest] [SqlDatabase] beside a [Singleton] logger: its
    [_logger] becomes the logger, and after the lookup of another database
    the first keeps it and the lookup of the logger returns it. *)
Lemma setter_injects_logger_witness :
  let s5 := state_of (get_instance module_globals 2 IDatabase per_request_state) in
  let s6 := default Injector (run module_globals 2 [OpGetInstance IDatabase] s5) in
  get_instance module_globals 2 IDatabase per_request_state = Ok (VRef 0) s5 ∧
  heap s6 !! 0 =
    Some (Object "SqlDatabase"
            [("connection_string", VStr "server=dev"); ("_logger", VRef 1)]) ∧
  get_instance module_globals 1 ILogger s6 = Ok (VRef 1) s6.
Proof.
  intros s5 s6.
  destruct (setter_injects_logger module_globals 1 IDatabase per_request_state
              (Registration LifeStyle.PerRequest
                 [("connection_string", VStr "server=dev")] (Implementation SqlDatabase))
              SqlDatabase store_logger
              [("connection_string", VStr "server=dev")] per_request_state
              [("connection_string", VStr "server=dev"); ("_logger", VNone)]
              (VRef 1)
              (state_of (get_instance module_globals 1 ILogger
                 (alloc (Object "SqlDatabase"
                           [("connection_string", VStr "server=dev"); ("_logger", VNone)])
                    per_request_state).2))
              [("connection_string", VStr "server=dev"); ("_logger", VRef 1)]
              eq_refl eq_refl eq_refl eq_refl eq_refl eq_refl eq_refl)
    as (_ & _ & _ & H4).
  destruct (H4 logger_first) as [Hget Hlater].
  - apply ranked_b_sound. reflexivity.
  - eexists. split; reflexivity.
  - split; [discriminate|]. intros _ H. discriminate H.
  - split; [reflexivity|].
    assert (Hrun : run module_globals 2 [OpGetInstance IDatabase] s5 = Some s6)
      by (vm_compute; reflexivity).
    destruct (Hlater 2 [OpGetInstance IDatabase] s6 Hrun) as [Hheap Hlog].
    split; [exact Hheap|]. apply (Hlog ltac:(eexists; split; reflexivity) 0).
Defined.


(** The classes the clause [except (ValueError, RuntimeError)] lets
    through and those it stops. *)
Example swallowed_classes :
  swallowed (Exn (Derived "RecursionError" RuntimeError) "maximum recursion depth exceeded")
    = true ∧
  swallowed (Exn (Derived "UnicodeDecodeError" (Derived "UnicodeError" ValueError)) "")
    = true ∧
  swallowed (Exn NotImplementedError "") = true ∧
  swallowed (Exn KeyError "'x'") = false ∧
  swallowed (Exn (Derived "ConnectionRefused" (OtherError "ServiceError")) "") = false.
Proof. by split_and!. Qed.

Lemma literal_params_resolve_witness :
  _resolve_constructor_params module_globals (get_instance module_globals 0)
    [("smtp_server", VStr "smtp.example.com"); ("smtp_port", VInt 587)] Injector
  = Ok [("smtp_server", VStr "smtp.example.com"); ("smtp_port", VInt 587)] Injector.
Proof.
  apply (literal_params_resolve module_globals); [reflexivity|].
  compute_done.
Defined.

(** A [FileLogger] with its file name, registered as the [Singleton]
    logger of a new injector. *)
Lemma register_then_lookup_witness :
  ∃ s1,
    register ILogger (ImplClass FileLogger) LifeStyle.Singleton
      (Some [("filename", VStr "audit.log")]) Injector = Ok tt s1 ∧
    get_instance module_globals 1 ILogger s1 =
      Ok (VRef 0)
         (cache_instance LifeStyle.Singleton ILogger (VRef 0)
            (set_heap (fun h => h ++ [Object "FileLogger" [("filename", VStr "audit.log")]])
               s1)).
Proof.
  apply (register_then_lookup module_globals ILogger FileLogger LifeStyle.Singleton
           [("filename", VStr "audit.log")] [("filename", VStr "audit.log")] Injector);
    [reflexivity|compute_done|reflexivity|reflexivity|].
  split; [reflexivity|]. intros H. by destruct H.
Defined.

Lemma unresolved_dependency_witness :
  get_instance module_globals 1 IEmailService dangling_state
    = Raise (creation_failure IEmailService
               (creation_failure IEmailService (dependency_not_found "ICache")))
            dangling_state ∧
  get_instance module_globals 2 IDatabase dangling_state
    = Raise (creation_failure IDatabase
               (creation_failure IDatabase (no_registration ILogger)))
            dangling_state.
Proof.
  assert (Hmiss1 : cache_miss dangling_state IEmailService LifeStyle.PerRequest).
  { split; [discriminate|]. intros _ H. discriminate H. }
  assert (Hmiss2 : cache_miss dangling_state IDatabase LifeStyle.Singleton).
  { split; [reflexivity|]. intros H. by destruct H. }
  pose proof (unresolved_dependency module_globals IEmailService
                (Registration LifeStyle.PerRequest
                   [("smtp_server", VStr "smtp.example.com"); ("cache", VStr "@ICache")]
                   (Implementation SmtpEmailService))
                SmtpEmailService [("smtp_server", VStr "smtp.example.com")]
                "cache" "ICache" [] dangling_state
                eq_refl eq_refl eq_refl eq_refl Hmiss1) as [H1 _].
  pose proof (unresolved_dependency module_globals IDatabase
                (Registration LifeStyle.Singleton
                   [("connection_string", VStr "server=dev"); ("logger", VStr "@ILogger")]
                   (Implementation SqlDatabase))
                SqlDatabase [("connection_string", VStr "server=dev")]
                "logger" "ILogger" [] dangling_state
                eq_refl eq_refl eq_refl eq_refl Hmiss2) as [_ H2].
  split; [exact (H1 eq_refl 0)|exact (H2 ILogger eq_refl eq_refl 0)].
Defined.

(** Configuration, a scope with a lookup in it, and a lookup after it. *)
Lemma reachable_well_formed_witness :
  let ops :=
    [OpRegister ILogger (ImplClass ConsoleLogger) LifeStyle.Singleton None;
     OpRegister IDatabase (ImplClass SqlDatabase) LifeStyle.Scoped
       (Some [("connection_string", VStr "server=dev")]);
     OpEnter; OpGetInstance IDatabase; OpExit; OpGetInstance IDatabase] in
  let s := default Injector (run module_globals 2 ops Injector) in
  _in_scope s = false ∧ _scoped_instances s = ∅ ∧
  _singleton_instances s !! ILogger = Some (VRef 1).
Proof.
  intros ops s.
  assert (Hrun : run module_globals 2 ops Injector = Some s) by (vm_compute; reflexivity).
  destruct (reachable_well_formed module_globals 2 ops s Hrun) as (H1 & _ & _).
  assert (Hin : _in_scope s = false) by (vm_compute; reflexivity).
  split_and!; [exact Hin|exact (H1 Hin)|vm_compute; reflexivity].
Defined.

(** The production configuration is acyclic with the logger ranked first. *)
Lemma acyclic_lookup_answers_witness :
  get_instance module_globals 2 IEmailService prod ≠ Timeout ∧
  get_instance module_globals 5 IEmailService prod
    = get_instance module_globals 2 IEmailService prod.
Proof.
  destruct (acyclic_lookup_answers module_globals logger_first 2 IEmailService prod)
    as [H1 H2].
  - apply ranked_b_sound. reflexivity.
  - unfold logger_first. simpl. lia.
  - split; [exact H1|]. apply H2. lia.
Defined.

Lemma registrations_commute_witness :
  state_of (register IDatabase (ImplClass MockDatabase) LifeStyle.PerRequest None
              (state_of (register ILogger (ImplClass ConsoleLogger)
                           LifeStyle.Singleton None Injector))) =
  state_of (register ILogger (ImplClass ConsoleLogger) LifeStyle.Singleton None
              (state_of (register IDatabase (ImplClass MockDatabase)
                           LifeStyle.PerRequest None Injector))).
Proof.
  apply (registrations_commute ILogger IDatabase). discriminate.
Defined.

(** [IEmailService] in [configure_prod]: the logger its constructor is
    given is the one a lookup returns after a scope has been entered and a
    database built in it. *)
Lemma singleton_dependency_shared_witness :
  let s5 := state_of (get_instance module_globals 2 IEmailService prod) in
  let s6 := default Injector
              (run module_globals 2 [OpEnter; OpGetInstance IDatabase] s5) in
  get_instance module_globals 2 IEmailService prod = Ok (VRef 1) s5 ∧
  _resolve_constructor_params module_globals (get_instance module_globals 1)
    [("smtp_server", VStr "smtp.example.com"); ("smtp_port", VInt 587);
     ("logger", VStr "@ILogger")] prod
  = Ok [("smtp_server", VStr "smtp.example.com"); ("smtp_port", VInt 587);
        ("logger", VRef 0)]
       (set_singleton_instances (insert ILogger (VRef 0))
          (set_heap (fun h => h ++ [Object "FileLogger" [("filename", VStr "custom.log")]])
             prod)) ∧
  get_instance module_globals 1 ILogger s6 = Ok (VRef 0) s6.
Proof.
  intros s5 s6.
  assert (Hget : get_instance module_globals 2 IEmailService prod = Ok (VRef 1) s5)
    by (vm_compute; reflexivity).
  assert (Hrun : run module_globals 2 [OpEnter; OpGetInstance IDatabase] s5 = Some s6)
    by (vm_compute; reflexivity).
  split; [exact Hget|]. split; [reflexivity|].
  pose proof (singleton_dependency_shared module_globals logger_first 1 IEmailService
              (Registration LifeStyle.Singleton
                 [("smtp_server", VStr "smtp.example.com"); ("smtp_port", VInt 587);
                  ("logger", VStr "@ILogger")] (Implementation SmtpEmailService))
              SmtpEmailService
              [("smtp_server", VStr "smtp.example.com"); ("smtp_port", VInt 587)]
              "logger" "ILogger" [] ILogger prod (VRef 1) s5) as H.
  assert (H1 : ranked module_globals logger_first prod) by (apply ranked_b_sound; reflexivity).
  specialize (H H1 eq_refl eq_refl eq_refl).
  assert (H2 : "logger" ∉ dict_keys []) by apply not_elem_of_nil.
  specialize (H H2 eq_refl).
  assert (H3 : registered_as prod LifeStyle.Singleton ILogger) by (eexists; split; reflexivity).
  specialize (H H3).
  assert (H4 : cache_miss prod IEmailService LifeStyle.Singleton) by (split; [reflexivity|]; intros Hn; by destruct Hn).
  specialize (H H4 Hget).
  destruct H as (inst & cp & s1 & attrs & Hres & Hcp & _ & Hlater).
  assert (E : Ok cp s1 =
    Ok [("smtp_server", VStr "smtp.example.com"); ("smtp_port", VInt 587);
        ("logger", VRef 0)]
       (set_singleton_instances (insert ILogger (VRef 0))
          (set_heap (fun h => h ++ [Object "FileLogger" [("filename", VStr "custom.log")]])
             prod))) by (rewrite <- Hres; vm_compute; reflexivity).
  injection E as -> _. injection Hcp as <-.
  apply (Hlater 2 [OpEnter; OpGetInstance IDatabase] s6 Hrun).
  eexists; split; reflexivity.
Defined.
